(** * PokerBot-Discord: the command handlers and dispatcher of [bot.py]

    A shallow embedding of [src/bot.py].  Python values are modelled as
    follows: [int] as [Z]; [str] as [string] (ASCII text, one character
    per position); [list] as [list]; a [dict] as a [gmap], or as an
    association list where iteration order is observable; an object that
    is mutated in place as a value threaded through the call and written
    back; an exception as the [Raised] outcome.

    [bot.py] imports [Game], [GAME_OPTIONS] and [GameState] from the
    module [game], whose source is not part of the sources at hand.  The
    record types follow the data model of the specification, the methods
    of [Game] are the fields of the interface [Game.API], and the module
    [SpecGame] gives the instance described by the specification. *)

From Stdlib Require Import ZArith List String Ascii Lia Bool.
From stdpp Require Import base gmap strings list pretty.

Local Open Scope Z_scope.

(** ** Python built-ins used by [bot.py] *)

Module Py.

(** Exceptions that the modelled code can raise. *)
Inductive exn :=
| IndexError
| KeyError
| ValueError
| FileNotFoundError.

(** The outcome of a call that returns an [A] or raises. *)
Inductive res (A : Type) :=
| Ret (a : A)
| Raised (e : exn).
Arguments Ret {A} a.
Arguments Raised {A} e.

Definition bind {A B} (r : res A) (k : A -> res B) : res B :=
  match r with
  | Ret a => k a
  | Raised e => Raised e
  end.

(** [l[i]] on a list: [IndexError] out of range. *)
Definition item {A} (l : list A) (i : nat) : res A :=
  match l !! i with
  | Some x => Ret x
  | None => Raised IndexError
  end.

(** [len(s)] *)
Definition len (s : string) : nat := String.length s.

(** The ASCII characters for which [str.isspace] holds. *)
Definition isspace (c : ascii) : bool :=
  let n := nat_of_ascii c in
  ((9 <=? n) && (n <=? 13) || (28 <=? n) && (n <=? 32))%nat.

(** [s.split()]: the maximal runs of non-blank characters, in order. *)
Fixpoint split_go (s : string) (tok : string) : list string :=
  match s with
  | EmptyString => if decide (tok = EmptyString) then [] else [tok]
  | String c s' =>
      if isspace c
      then (if decide (tok = EmptyString) then split_go s' EmptyString
            else tok :: split_go s' EmptyString)
      else split_go s' (tok +:+ String c EmptyString)
  end.

Definition split (s : string) : list string := split_go s EmptyString.

(** [sep.join(l)] *)
Definition join (sep : string) (l : list string) : string := String.concat sep l.

Definition newline : string := String (ascii_of_nat 10) EmptyString.

(** [s.find(c, start)] for a one-character [c]: the lowest position at or
    after [start] that holds [c]; [None] stands for Python's [-1]. *)
Fixpoint find_go (c : ascii) (s : string) (pos start : nat) : option nat :=
  match s with
  | EmptyString => None
  | String d s' =>
      if (start <=? pos)%nat && Ascii.eqb d c then Some pos
      else find_go c s' (S pos) start
  end.

Definition find (c : ascii) (s : string) (start : nat) : option nat :=
  find_go c s 0 start.

(** [s[a:b]] for non-negative [a] and [b]. *)
Definition slice (s : string) (a b : nat) : string := substring a (b - a) s.

(** [s.removeprefix(p)] *)
Definition removeprefix (p s : string) : string :=
  if String.prefix p s then substring (len p) (len s - len p) s else s.

(** [s[0]] of a string, as the one-character string Python gives. *)
Definition first_char (s : string) : res string :=
  match s with
  | EmptyString => Raised IndexError
  | String c _ => Ret (String c EmptyString)
  end.

(** [' ' * n] *)
Fixpoint spaces (n : nat) : string :=
  match n with
  | O => EmptyString
  | S n' => String " " (spaces n')
  end.

(** [sorted] on strings (code-point order), by insertion. *)
Fixpoint insert_sorted {A} (key : A -> string) (x : A) (l : list A) : list A :=
  match l with
  | [] => [x]
  | y :: l' => if String.leb (key x) (key y) then x :: l else y :: insert_sorted key x l'
  end.

Definition sorted_by {A} (key : A -> string) (l : list A) : list A :=
  foldr (insert_sorted key) [] l.

(** [max] of a non-empty list of naturals; [ValueError] on the empty list. *)
Definition max_nat (l : list nat) : res nat :=
  match l with
  | [] => Raised ValueError
  | x :: l' => Ret (foldl Nat.max x l')
  end.

(** [max] of a non-empty list of integers; [ValueError] on the empty list. *)
Definition max_int (l : list Z) : res Z :=
  match l with
  | [] => Raised ValueError
  | x :: l' => Ret (foldl Z.max x l')
  end.

(** [sum] of a list of integers. *)
Definition sum (l : list Z) : Z := foldl Z.add 0 l.

(** [str(n)] of an integer. *)
Definition str (n : Z) : string := pretty n.

End Py.

Notation "x <- r ;; k" := (Py.bind r (fun x => k))
  (at level 100, r at next level, right associativity, only parsing).

(** ** Data model *)

(** [discord.User]: compared by [id], as the library's [__eq__] does. *)
Module User.
Record t := { id : Z; name : string }.
Definition eqb (u v : t) : bool := Z.eqb (id u) (id v).
End User.

(** [discord.TextChannel]: hashed and compared by [id]; [type] is what
    [on_message] compares with the text [dm]. *)
Module Channel.
Record t := { id : Z; type : string }.
End Channel.

(** [discord.Message], with the attributes [bot.py] reads. *)
Module Message.
Record t := { author : User.t; content : string; channel : Channel.t }.
End Message.

(** Modelled from the spec: the enumeration [GameState] of [game.py], with
    the lifecycle states of section 4.1. *)
Inductive GameState :=
| NO_GAME
| WAITING
| NO_HANDS
| BETTING
| SHOWDOWN.

#[global] Instance GameState_eq_dec : EqDecision GameState.
Proof. solve_decision. Defined.

(** Modelled from the spec: a [Player] of [game.py] (section 3): identity,
    chip stack [max_bet], current-round contribution [cur_bet], hand, and
    the [folded] and [all_in] flags; [name] is the attribute that
    [raise_bet] and [fold_hand] read. *)
Module Player.
Record t := {
  user : User.t;
  name : string;
  cur_bet : Z;
  max_bet : Z;
  folded : bool;
  all_in : bool;
  hand : list string
}.
End Player.

(** A row of the table [players] of the account store: the column [uid]
    and the four columns read by position. *)
Record Account := {
  uid : string;
  chips : Z;
  experience : Z;
  level : Z;
  wins : Z
}.

(** [PIL.Image]: a decoded asset and its [size] (width, height). *)
Module Image.
Record t := { file : string; size : Z * Z }.
End Image.

(** The image made by [Image.new] and filled by [paste]: its mode, its
    size, and the pasted images with their offsets, in paste order. *)
Record Canvas := {
  mode : string;
  canvas_size : Z * Z;
  pasted : list (Image.t * (Z * Z))
}.

(** What the bot does on the chat platform. *)
Inductive Event :=
| Send (channel : Z) (text : string)
| SendFile (channel : Z) (image : Canvas) (filename : string)
| AddReaction (emoji : string)
| DirectMessage (user : User.t) (text : string).

(** Modelled from the spec: the [Game] of [game.py] (section 3): state,
    ordered player list, dealer index, current-player index, pot,
    table-wide [cur_bet], deck and option mapping.  [since_raise] counts
    the turns taken since the last raise, which the round-completion rule
    of section 4.3 refers to. *)
Module Game.
Record t := {
  state : GameState;
  players : list Player.t;
  dealer_index : nat;
  turn_index : nat;
  pot : Z;
  cur_bet : Z;
  since_raise : nat;
  deck : list string;
  options : gmap string Z
}.

Definition set_state (s : GameState) (g : t) : t :=
  {| state := s; players := players g; dealer_index := dealer_index g;
     turn_index := turn_index g; pot := pot g; cur_bet := cur_bet g;
     since_raise := since_raise g; deck := deck g; options := options g |}.

Definition set_options (o : gmap string Z) (g : t) : t :=
  {| state := state g; players := players g; dealer_index := dealer_index g;
     turn_index := turn_index g; pot := pot g; cur_bet := cur_bet g;
     since_raise := since_raise g; deck := deck g; options := o |}.

(** Modelled from the spec: [game.is_player(user)] (section 4.2), which is
    in [game.py]: some seat holds the identity. *)
Definition is_player (g : t) (u : User.t) : bool :=
  existsb (fun p => User.eqb (Player.user p) u) (players g).

(** Modelled from the spec: [game.dealer], which is in [game.py]: the
    player at the dealer index (section 3). *)
Definition dealer (g : t) : Py.res Player.t := Py.item (players g) (dealer_index g).

(** Modelled from the spec: [game.current_player], which is in [game.py]:
    the player at the current-player index (section 3). *)
Definition current_player (g : t) : Py.res Player.t := Py.item (players g) (turn_index g).

(** The methods and the option table of [game.py] that [bot.py] uses.
    A method takes the game, returns the game as it has left it, and
    returns its value or raises.  [add_player] may read the account
    store, from which the spec says a player's chip stack is taken. *)
Class API := {
  GAME_OPTIONS : list (string * string);
  init : Message.t -> t;
  new_game : t -> Message.t -> t;
  add_player : list Account -> t -> User.t -> t * bool;
  start : t -> t * Py.res (list string);
  deal_hands : t -> t * Py.res (list string);
  call : t -> t * Py.res (list string);
  check : t -> t * Py.res (list string);
  raise_bet : t -> Z -> t * Py.res (list string);
  fold : t -> t * Py.res (list string);
  all_in : t -> t * Py.res (list string);
  tell_hands : t -> list Event
}.
End Game.

(** The process environment and the libraries outside the repository:
    the command prefix and the bot's own user; Python's [int] on a text
    ([None] for [ValueError]); [Image.open] ([None] when the asset is
    missing); the column defaults of the table [players]. *)
Class Env := {
  prefix : string;
  client_user : User.t;
  int : string -> option Z;
  Image_open : string -> option Image.t;
  default_chips : Z;
  default_experience : Z;
  default_level : Z;
  default_wins : Z
}.

(** ** The command handlers of [bot.py]

    A handler takes the channel's game and the message and returns the
    lines the bot should say.  The game object is mutated in place, so
    the model returns the game as the handler leaves it; a handler that
    touches the account store returns the store as well. *)

Section Handlers.
Context `{Env} `{Game.API}.

Import Message.

Definition reply := (Game.t * Py.res (list string))%type.

(** The row [INSERT INTO players (uid) VALUES (newuid)] creates. *)
Definition new_account (newuid : string) : Account :=
  {| uid := newuid; chips := default_chips; experience := default_experience;
     level := default_level; wins := default_wins |}.

(** [SELECT ... FROM players WHERE uid = u] followed by [fetchone()]. *)
Definition select_uid (table : list Account) (u : string) : option Account :=
  List.find (fun r => String.eqb (uid r) u) table.

Definition register (table : list Account) (m : Message.t)
  : list Account * Py.res (list string) :=
  let newuid := Py.str (User.id (author m)) in
  match select_uid table newuid with
  | None => (table ++ [new_account newuid], Py.Ret ["Thank you for registering!"])
  | Some _ => (table, Py.Ret ["You already have registered!"])
  end.

Definition new_game (table : list Account) (g : Game.t) (m : Message.t) : reply :=
  if decide (Game.state g = NO_GAME) then
    let g1 := Game.new_game g m in
    let g2 := fst (Game.add_player table g1 (author m)) in
    (Game.set_state WAITING g2,
     Py.Ret ["A new game has been started by " +:+ User.name (author m) +:+ "!";
             "Message " +:+ prefix +:+ "join to join the game."])
  else
    let messages := ["There is already a game in progress, " +:+
                     "you can't start a new game."] in
    if decide (Game.state g = WAITING) then
      (g, Py.Ret (messages ++
                  ["It still hasn't started yet, so you can still " +:+
                   "message " +:+ prefix +:+ "join to join that game."]))
    else (g, Py.Ret messages).

Definition stop_game (g : Game.t) (m : Message.t) : reply :=
  if decide (Game.state g ≠ NO_GAME) then
    (Game.set_state NO_GAME g,
     Py.Ret ["Game has been stopped by " +:+ User.name (author m) +:+ "!"])
  else (g, Py.Ret ["There is no game in progress!"]).

Definition join_game (table : list Account) (g : Game.t) (m : Message.t) : reply :=
  if decide (Game.state g = NO_GAME) then
    (g, Py.Ret ["No game has been started yet for you to join.";
                "Message " +:+ prefix +:+ "newgame to start a new game."])
  else if decide (Game.state g ≠ WAITING) then
    (g, Py.Ret ["The game is already in progress, " +:+ User.name (author m) +:+ ".";
                "You're not allowed to join right now."])
  else
    let (g', added) := Game.add_player table g (author m) in
    if added then
      (g', Py.Ret [User.name (author m) +:+ " has joined the game!";
                   "Message " +:+ prefix +:+ "join to join the game, " +:+
                   "or " +:+ prefix +:+ "start to start the game."])
    else
      (g', Py.Ret ["You've already joined the game " +:+ User.name (author m) +:+ "!"]).

Definition start_game (g : Game.t) (m : Message.t) : reply :=
  if decide (Game.state g = NO_GAME) then
    (g, Py.Ret ["Message " +:+ prefix +:+ "newgame if you would like to start a new game."])
  else if decide (Game.state g ≠ WAITING) then
    (g, Py.Ret ["The game has already started, " +:+ User.name (author m) +:+ ".";
                "It can't be started twice."])
  else if negb (Game.is_player g (author m)) then
    (g, Py.Ret ["You are not a part of that game yet, " +:+ User.name (author m) +:+ ".";
                "Please message " +:+ prefix +:+ "join if you are interested in playing."])
  else if Z.of_nat (length (Game.players g)) <? 0 then
    (g, Py.Ret ["The game must have at least two players before " +:+
                "it can be started."])
  else Game.start g.

Definition deal_hand (g : Game.t) (m : Message.t) : reply :=
  if decide (Game.state g = NO_GAME) then
    (g, Py.Ret ["No game has been started for you to deal. " +:+
                "Message " +:+ prefix +:+ "newgame to start one."])
  else if decide (Game.state g = WAITING) then
    (g, Py.Ret ["You can't deal because the game hasn't started yet."])
  else if decide (Game.state g ≠ NO_HANDS) then
    (g, Py.Ret ["The cards have already been dealt."])
  else
    match Game.dealer g with
    | Py.Raised e => (g, Py.Raised e)
    | Py.Ret dealer =>
        if negb (User.eqb (Player.user dealer) (author m)) then
          (g, Py.Ret ["You aren't the dealer, " +:+ User.name (author m) +:+ ".";
                      "Please wait for " +:+ User.name (Player.user dealer) +:+
                      " to " +:+ prefix +:+ "deal."])
        else Game.deal_hands g
    end.

Definition call_bet (g : Game.t) (m : Message.t) : reply :=
  if decide (Game.state g = NO_GAME) then
    (g, Py.Ret ["No game has been started yet. Message !newgame to start one."])
  else if decide (Game.state g = WAITING) then
    (g, Py.Ret ["You can't call any bets because the game hasn't started yet."])
  else if negb (Game.is_player g (author m)) then
    (g, Py.Ret ["You can't call, because you're not playing, " +:+
                User.name (author m) +:+ "."])
  else if decide (Game.state g = NO_HANDS) then
    (g, Py.Ret ["You can't call any bets because the hands haven't been " +:+
                "dealt yet."])
  else
    match Game.current_player g with
    | Py.Raised e => (g, Py.Raised e)
    | Py.Ret current_player =>
        if negb (User.eqb (Player.user current_player) (author m)) then
          (g, Py.Ret ["You can't call " +:+ User.name (author m) +:+ ", because it's " +:+
                      User.name (Player.user current_player) +:+ "'s turn."])
        else Game.call g
    end.

Definition check (g : Game.t) (m : Message.t) : reply :=
  if decide (Game.state g = NO_GAME) then
    (g, Py.Ret ["No game has been started yet. Message " +:+ prefix +:+
                "newgame to start one."])
  else if decide (Game.state g = WAITING) then
    (g, Py.Ret ["You can't check because the game hasn't started yet."])
  else if negb (Game.is_player g (author m)) then
    (g, Py.Ret ["You can't check, because you're not playing, " +:+
                User.name (author m) +:+ "."])
  else if decide (Game.state g = NO_HANDS) then
    (g, Py.Ret ["You can't check because the hands haven't been dealt yet."])
  else
    match Game.current_player g with
    | Py.Raised e => (g, Py.Raised e)
    | Py.Ret current_player =>
        if negb (User.eqb (Player.user current_player) (author m)) then
          (g, Py.Ret ["You can't check, " +:+ User.name (author m) +:+ ", because it's " +:+
                      User.name (Player.user current_player) +:+ "'s turn."])
        else if negb (Player.cur_bet current_player =? Game.cur_bet g) then
          (g, Py.Ret ["You can't check, " +:+ User.name (author m) +:+
                      " because you need to " +:+ "put in $" +:+
                      Py.str (Game.cur_bet g - Player.cur_bet current_player) +:+
                      " to " +:+ "call."])
        else Game.check g
    end.

(** The reply of [raise_bet] when a [ValueError] is caught. *)
Definition not_an_integer (token : string) : list string :=
  ["Please follow " +:+ prefix +:+ "raise with an integer. " +:+
   "'" +:+ token +:+ "' is not an integer."].

(** The [except ValueError] clause of [raise_bet], around the call of
    the method: a [ValueError] raised by it is caught and answered. *)
Definition caught (token : string) (r : reply) : reply :=
  match r with
  | (g', Py.Raised Py.ValueError) => (g', Py.Ret (not_an_integer token))
  | r => r
  end.

Definition raise_bet (g : Game.t) (m : Message.t) : reply :=
  if decide (Game.state g = NO_GAME) then
    (g, Py.Ret ["No game has been started yet. Message !newgame to start one."])
  else if decide (Game.state g = WAITING) then
    (g, Py.Ret ["You can't raise because the game hasn't started yet."])
  else if negb (Game.is_player g (author m)) then
    (g, Py.Ret ["You can't raise, because you're not playing, " +:+
                User.name (author m) +:+ "."])
  else if decide (Game.state g = NO_HANDS) then
    (g, Py.Ret ["You can't raise because the hands haven't been dealt yet."])
  else
    match Game.current_player g with
    | Py.Raised e => (g, Py.Raised e)
    | Py.Ret current_player =>
        if negb (User.eqb (Player.user current_player) (author m)) then
          (g, Py.Ret ["You can't raise, " +:+ User.name (author m) +:+ ", because it's " +:+
                      Player.name current_player +:+ "'s turn."])
        else
          let tokens := Py.split (content m) in
          if (length tokens <? 2)%nat then
            (g, Py.Ret ["Please follow " +:+ prefix +:+ "raise with the amount that you would " +:+
                        "like to raise it by."])
          else
            match Py.item tokens 1 with
            | Py.Raised e => (g, Py.Raised e)
            | Py.Ret token =>
                match int token with
                | None => (g, Py.Ret (not_an_integer token))
                | Some amount =>
                    if Game.cur_bet g >=? Player.max_bet current_player then
                      (g, Py.Ret ["You don't have enough money to raise the current bet " +:+
                                  "of $" +:+ Py.str (Game.cur_bet g) +:+ "."])
                    else if Game.cur_bet g + amount >? Player.max_bet current_player then
                      (g, Py.Ret ["You don't have enough money to raise by $" +:+
                                  Py.str amount +:+ ".";
                                  "The most you can raise it by is " +:+ "$" +:+
                                  Py.str (Player.max_bet current_player - Game.cur_bet g) +:+ "."])
                    else caught token (Game.raise_bet g amount)
                end
            end
    end.

Definition fold_hand (g : Game.t) (m : Message.t) : reply :=
  if decide (Game.state g = NO_GAME) then
    (g, Py.Ret ["No game has been started yet. " +:+
                "Message " +:+ prefix +:+ "newgame to start one."])
  else if decide (Game.state g = WAITING) then
    (g, Py.Ret ["You can't fold yet because the game hasn't started yet."])
  else if negb (Game.is_player g (author m)) then
    (g, Py.Ret ["You can't fold, because you're not playing, " +:+
                User.name (author m) +:+ "."])
  else if decide (Game.state g = NO_HANDS) then
    (g, Py.Ret ["You can't fold yet because the hands haven't been dealt yet."])
  else
    match Game.current_player g with
    | Py.Raised e => (g, Py.Raised e)
    | Py.Ret current_player =>
        if negb (User.eqb (Player.user current_player) (author m)) then
          (g, Py.Ret ["You can't fold " +:+ User.name (author m) +:+ ", because it's " +:+
                      Player.name current_player +:+ "'s turn."])
        else Game.fold g
    end.

(** The keys of the dictionary [commands] with their descriptions, in the
    order of the dictionary. *)
Definition command_help : list (string * string) :=
  [("newgame", "Starts a new game, allowing players to join.");
   ("join", "Lets you join a game that is about to begin");
   ("start", "Begins a game after all players have joined");
   ("deal", "Deals the hole cards to all the players");
   ("call", "Matches the current bet");
   ("raise", "Increase the size of current bet");
   ("check", "Bet no money");
   ("fold", "Discard your hand and forfeit the pot");
   ("help", "Show the list of commands");
   ("options", "Show the list of options and their current values");
   ("set", "Set the value of an option");
   ("balance", "Shows how many chips each player has left");
   ("all-in", "Bets the entirety of your remaining chips");
   ("reg", "Register player in database");
   ("dealer", "what do you wanna do?");
   ("stop", "Stop a game")].

Definition show_help (g : Game.t) (m : Message.t) : reply :=
  (g,
   longest_command <- Py.max_nat (Py.len <$> command_help.*1) ;;
   let help_lines :=
     (fun '(command, info) =>
        let spacing :=
          Py.spaces (Z.to_nat (Z.of_nat longest_command - Z.of_nat (Py.len command) + 2)) in
        prefix +:+ command +:+ spacing +:+ info)
     <$> Py.sorted_by fst command_help in
   Py.Ret ["```" +:+ Py.join Py.newline help_lines +:+ "```"]).

(** The body of the loop of [show_options] for one option. *)
Definition option_line (g : Game.t) (longest_option longest_value : nat)
    (entry : string * string) : Py.res string :=
  let '(option, description) := entry in
  let name_spaces :=
    Py.spaces (Z.to_nat (Z.of_nat longest_option - Z.of_nat (Py.len option) + 2)) in
  match Game.options g !! option with
  | None => Py.Raised Py.KeyError
  | Some val =>
      let val_spaces :=
        Py.spaces (Z.to_nat (Z.of_nat longest_value - Z.of_nat (Py.len (Py.str val)) + 2)) in
      Py.Ret (option +:+ name_spaces +:+ Py.str val +:+ val_spaces +:+ description)
  end.

Fixpoint option_lines (g : Game.t) (longest_option longest_value : nat)
    (entries : list (string * string)) : Py.res (list string) :=
  match entries with
  | [] => Py.Ret []
  | entry :: rest =>
      line <- option_line g longest_option longest_value entry ;;
      lines <- option_lines g longest_option longest_value rest ;;
      Py.Ret (line :: lines)
  end.

Definition show_options (g : Game.t) (m : Message.t) : reply :=
  (g,
   longest_option <- Py.max_nat (Py.len <$> (map_to_list (Game.options g)).*1) ;;
   longest_value <- Py.max_nat ((fun kv => Py.len (Py.str kv.2)) <$> map_to_list (Game.options g)) ;;
   lines <- option_lines g longest_option longest_value Game.GAME_OPTIONS ;;
   Py.Ret ["```" +:+ Py.join Py.newline lines +:+ "```"]).

Definition set_option (g : Game.t) (m : Message.t) : reply :=
  let tokens := Py.split (content m) in
  if (length tokens =? 2)%nat then
    (g, Py.Ret ["You must specify a new value after the name of an option " +:+
                "when using the $set command."])
  else if (length tokens =? 1)%nat then
    (g, Py.Ret ["You must specify an option and value to set when using " +:+
                "the !set command."])
  else
    match Py.item tokens 1 with
    | Py.Raised e => (g, Py.Raised e)
    | Py.Ret option =>
        if decide (option ∉ Game.GAME_OPTIONS.*1) then
          (g, Py.Ret ["'" +:+ option +:+ "' is not an option. Message !options to see " +:+
                      "the list of options."])
        else
          match Py.item tokens 2 with
          | Py.Raised e => (g, Py.Raised e)
          | Py.Ret value =>
              match int value with
              | None =>
                  (g, Py.Ret [option +:+ " must be set to an integer, and '" +:+ value +:+
                              "' is not a valid integer."])
              | Some val =>
                  if val <? 0 then
                    (g, Py.Ret ["Cannot set " +:+ option +:+ " to a negative value!"])
                  else
                    (Game.set_options (<[option := val]> (Game.options g)) g,
                     Py.Ret ["The " +:+ option +:+ " is now set to " +:+ value +:+ "."])
              end
          end
    end.

Definition balance (table : list Account) (m : Message.t)
  : list Account * Py.res (list string) :=
  let uid := Py.str (User.id (author m)) in
  match select_uid table uid with
  | None => (table, Py.Ret ["You have not registered yet!"])
  | Some userdata =>
      (table, Py.Ret [User.name (author m) +:+ " has $" +:+ Py.str (chips userdata) +:+ "."])
  end.

Definition all_in (g : Game.t) (m : Message.t) : reply :=
  if decide (Game.state g = NO_GAME) then
    (g, Py.Ret ["No game has been started yet. Message !newgame to start one."])
  else if decide (Game.state g = WAITING) then
    (g, Py.Ret ["You can't go all in because the game hasn't started yet."])
  else if negb (Game.is_player g (author m)) then
    (g, Py.Ret ["You can't go all in, because you're not playing, " +:+
                User.name (author m) +:+ "."])
  else if decide (Game.state g = NO_HANDS) then
    (g, Py.Ret ["You can't go all in because the hands haven't " +:+
                "been dealt yet."])
  else
    match Game.current_player g with
    | Py.Raised e => (g, Py.Raised e)
    | Py.Ret current_player =>
        if negb (User.eqb (Player.user current_player) (author m)) then
          (g, Py.Ret ["You can't go all in, " +:+ User.name (author m) +:+ ", because " +:+
                      "it's " +:+ User.name (Player.user current_player) +:+ "'s turn."])
        else Game.all_in g
    end.

Definition call_dealer (g : Game.t) (m : Message.t) : reply :=
  (g, Py.Ret ["What do you wanna do?"]).

(** ** The hand renderer *)

(** The [while] loop of [find_card]: [i] is a position of the delimiter
    in [message]; it is recorded and the search resumes after it.  The
    loop is bounded by [fuel]; [None] means the bound was reached. *)
Fixpoint find_card_while (fuel : nat) (message : string) (i : nat)
    (locates : list nat) : option (list nat) :=
  match fuel with
  | O => None
  | S fuel' =>
      let locates := locates ++ [i] in
      match Py.find "-" message (S i) with
      | None => Some locates
      | Some i' => find_card_while fuel' message i' locates
      end
  end.

(** The [for] loop of [find_card] over [enumerate(messages)], from [index] on. *)
Fixpoint find_card_for (index : nat) (messages : list string)
    (locates : list nat) : option (list nat) :=
  match messages with
  | [] => Some locates
  | message :: rest =>
      match Py.find "-" message 0 with
      | None => find_card_for (S index) rest locates
      | Some i =>
          match find_card_while (S (Py.len message)) message i (locates ++ [index]) with
          | None => None
          | Some locates' => find_card_for (S index) rest locates'
          end
      end
  end.

Definition find_card (messages : list string) : option (list nat) :=
  find_card_for 0 messages [].

(** The loop of [on_message] that builds [cards] from [locates]. *)
Definition card_file (messages : list string) (locates : list nat) (i : nat)
  : Py.res string :=
  line_index <- Py.item locates 0 ;;
  line <- Py.item messages line_index ;;
  a <- Py.item locates (i + 1) ;;
  b <- Py.item locates (i + 2) ;;
  Py.Ret ("Cards/" +:+ Py.slice line (a + 1) b +:+ ".png").

Fixpoint for_each {A B} (f : A -> Py.res B) (l : list A) : Py.res (list B) :=
  match l with
  | [] => Py.Ret []
  | x :: l' =>
      y <- f x ;;
      ys <- for_each f l' ;;
      Py.Ret (y :: ys)
  end.

Definition card_files (messages : list string) (locates : list nat)
  : Py.res (list string) :=
  for_each (card_file messages locates) (seq 0 (length locates - 2)).

(** [messages.pop(i)]: the list without its element at [i]. *)
Definition pop (i : nat) (messages : list string) : Py.res (list string) :=
  if (i <? length messages)%nat then Py.Ret (delete i messages)
  else Py.Raised Py.IndexError.

(** [Image.open(x)] *)
Definition open_image (x : string) : Py.res Image.t :=
  match Image_open x with
  | Some im => Py.Ret im
  | None => Py.Raised Py.FileNotFoundError
  end.

(** The loop that pastes the images side by side from [x_offset] on. *)
Fixpoint paste_all (images : list Image.t) (x_offset : Z) : list (Image.t * (Z * Z)) :=
  match images with
  | [] => []
  | im :: rest => (im, (x_offset, 0)) :: paste_all rest (x_offset + (Image.size im).1)
  end.

(** Lines 454 to 463: the sizes are unzipped into widths and heights
    (which raises on no image at all), a new image of the total width and
    the greatest height is made, and the images are pasted into it. *)
Definition compose (images : list Image.t) : Py.res Canvas :=
  match images with
  | [] => Py.Raised Py.ValueError
  | _ =>
      let widths := (fun i => (Image.size i).1) <$> images in
      let heights := (fun i => (Image.size i).2) <$> images in
      let total_width := Py.sum widths in
      max_height <- Py.max_int heights ;;
      Py.Ret {| mode := "RGB"; canvas_size := (total_width, max_height);
                pasted := paste_all images 0 |}
  end.

(** How a run of the modelled code ends. *)
Inductive status :=
| Done
| Crashed (e : Py.exn)
| Unfinished.

(** Lines 440 to 468 of [on_message]: what is sent to the channel for the
    lines [messages] of a handler. *)
Definition deliver (ch : Z) (messages : list string) : list Event * status :=
  match find_card messages with
  | None => ([], Unfinished)
  | Some [] => ([Send ch (Py.join Py.newline messages)], Done)
  | Some locates =>
      match (cards <- card_files messages locates ;;
             line_index <- Py.item locates 0 ;;
             messages' <- pop line_index messages ;;
             Py.Ret (cards, messages')) with
      | Py.Raised e => ([], Crashed e)
      | Py.Ret (cards, messages') =>
          let text := Send ch (Py.join Py.newline messages') in
          match (images <- for_each open_image cards ;; compose images) with
          | Py.Raised e => ([text], Crashed e)
          | Py.Ret new_im => ([text; SendFile ch new_im "new_im.png"], Done)
          end
      end
  end.

(** ** The dispatcher *)

(** The state the bot keeps between messages: the dictionary [games],
    keyed by channel, and the table [players] of the account store. *)
Record World := {
  games : gmap Z Game.t;
  accounts : list Account
}.

(** What a command does to the account store and to the channel's game. *)
Definition action :=
  list Account -> Game.t -> Message.t -> list Account * Game.t * Py.res (list string).

Definition on_game (h : Game.t -> Message.t -> reply) : action :=
  fun table g m => let (g', r) := h g m in (table, g', r).

Definition on_game_reading (h : list Account -> Game.t -> Message.t -> reply) : action :=
  fun table g m => let (g', r) := h table g m in (table, g', r).

Definition on_store
    (h : list Account -> Message.t -> list Account * Py.res (list string)) : action :=
  fun table g m => let (table', r) := h table m in (table', g, r).

(** The dictionary [commands]: each key with the action of its entry. *)
Definition commands : list (string * action) :=
  [("newgame", on_game_reading new_game);
   ("join", on_game_reading join_game);
   ("start", on_game start_game);
   ("deal", on_game deal_hand);
   ("call", on_game call_bet);
   ("raise", on_game raise_bet);
   ("check", on_game check);
   ("fold", on_game fold_hand);
   ("help", on_game show_help);
   ("options", on_game show_options);
   ("set", on_game set_option);
   ("balance", on_store balance);
   ("all-in", on_game all_in);
   ("reg", on_store register);
   ("dealer", on_game call_dealer);
   ("stop", on_game stop_game)].

(** [commands[command]], when [command in commands]. *)
Definition command_action (command : string) : option action :=
  snd <$> List.find (fun entry => String.eqb entry.1 command) commands.

(** [reaction(i)]: the emoji to attach, each written as its code point;
    the empty list stands for the empty text that [dict.get] defaults to. *)
Definition reaction (i : string) : list string :=
  if decide (i = "dealer") then ["U+27A1"; "U+1F4B5"; "U+2139"] else [].

(** [games.setdefault(channel, game)] *)
Definition setdefault (games : gmap Z Game.t) (channel : Z) (game : Game.t)
  : gmap Z Game.t * Game.t :=
  match games !! channel with
  | Some g => (games, g)
  | None => (<[channel := game]> games, game)
  end.

(** The part of [on_message] after the handler has returned [messages]. *)
Definition respond (command : string) (ch : Z) (game : Game.t)
    (messages : list string) : list Event * status :=
  let told :=
    if decide (command = "deal") then
      match Py.item messages 0 with
      | Py.Raised e => Py.Raised e
      | Py.Ret first =>
          Py.Ret (if decide (first = "The hands have been dealt!")
                  then Game.tell_hands game else [])
      end
    else Py.Ret [] in
  match told with
  | Py.Raised e => ([], Crashed e)
  | Py.Ret dms =>
      match deliver ch messages with
      | (sent, Done) => (dms ++ sent ++ (AddReaction <$> reaction command), Done)
      | (sent, st) => (dms ++ sent, st)
      end
  end.

Definition on_message (w : World) (m : Message.t) : World * list Event * status :=
  if User.eqb (author m) client_user then (w, [], Done)
  else
    let tokens := Py.split (content m) in
    if (length tokens =? 0)%nat then (w, [], Done)
    else if decide (Channel.type (channel m) = "dm") then (w, [], Done)
    else
      match (command <- Py.item tokens 0 ;;
             c <- Py.first_char command ;;
             Py.Ret (command, c)) with
      | Py.Raised e => (w, [], Crashed e)
      | Py.Ret (command, c) =>
          if decide (c = prefix) then
            let command := Py.removeprefix prefix command in
            match command_action command with
            | None =>
                (w,
                 [Send (Channel.id (channel m))
                    (content m +:+ " is not a valid command. " +:+
                     "Message " +:+ prefix +:+ "help to see the list of commands.")],
                 Done)
            | Some act =>
                let ch := Channel.id (channel m) in
                let (games1, game) := setdefault (games w) ch (Game.init m) in
                let '(table', game', r) := act (accounts w) game m in
                let w' := {| games := <[ch := game']> games1; accounts := table' |} in
                match r with
                | Py.Raised e => (w', [], Crashed e)
                | Py.Ret messages =>
                    let (events, st) := respond command ch game' messages in
                    (w', events, st)
                end
            end
          else (w, [], Done)
      end.

End Handlers.

(** ** The reaction handler of [bot.py] *)

(** [str(l)] of a list of texts that hold no quote, backslash or control
    character: what [channel.send] turns a list into. *)
Definition str_of_lines (l : list string) : string :=
  "[" +:+ Py.join ", " ((fun line => "'" +:+ line +:+ "'") <$> l) +:+ "]".

(** [balance_from] returns a list of lines for a user without an account
    and a single text for a user with one. *)
Definition balance_from (table : list Account) (user : User.t) : list string + string :=
  match select_uid table (Py.str (User.id user)) with
  | None => inl ["You have not registered yet!"]
  | Some userdata =>
      inr (User.name user +:+ " has $" +:+ Py.str (chips userdata) +:+ ".")
  end.

Definition info_from (table : list Account) (user : User.t) : list string :=
  match select_uid table (Py.str (User.id user)) with
  | None => ["You have not registered yet!"]
  | Some userdata =>
      [User.name user +:+ " infomation:";
       "Level: " +:+ Py.str (level userdata);
       "Current experience: " +:+ Py.str (experience userdata) +:+ "xp";
       "Win matches: " +:+ Py.str (wins userdata)]
  end.

(** [on_reaction_add(reaction, user)]: [emoji] and [ch] are the emoji of
    the reaction and the channel of its message, [user_bot] is [user.bot];
    the emoji are written as in [reaction].  The value of [balance_from]
    is sent as it is, so a list goes out as its [str]. *)
Definition on_reaction_add (table : list Account) (emoji : string) (ch : Z)
    (user : User.t) (user_bot : bool) : list Event :=
  if user_bot then []
  else if decide (emoji = "U+1F4B5") then
    [Send ch match balance_from table user with
             | inl messages => str_of_lines messages
             | inr messages => messages
             end]
  else if decide (emoji = "U+2139") then
    [Send ch (Py.join Py.newline (info_from table user))]
  else if decide (emoji = "emoji 3") then []
  else [].

(** ** The game engine of the specification

    [game.py] is not among the sources.  This module models its methods
    from sections 3 and 4 of the specification.  The guards that [bot.py]
    applies before it calls a method (state, membership, turn, the bound
    of a raise) are those of the handlers above; a method here applies
    the effect the specification describes.  Where the specification
    fixes no wording for the lines a method returns, a short line stands
    for them; the first line of [deal_hands] is the one [on_message]
    compares with. *)

Module SpecGame.
Import Game.

Section Engine.
(** The deck as shuffled for a new game, and the option table as
    (name, (description, default)). *)
Variable shuffled : list string.
Variable option_table : list (string * (string * Z)).

(** Assignments to the attributes of a game. *)
Definition set_players (ps : list Player.t) (g : t) : t :=
  {| state := state g; players := ps; dealer_index := dealer_index g;
     turn_index := turn_index g; pot := pot g; cur_bet := cur_bet g;
     since_raise := since_raise g; deck := deck g; options := options g |}.

Definition set_turn (i : nat) (g : t) : t :=
  {| state := state g; players := players g; dealer_index := dealer_index g;
     turn_index := i; pot := pot g; cur_bet := cur_bet g;
     since_raise := since_raise g; deck := deck g; options := options g |}.

Definition set_pot (x : Z) (g : t) : t :=
  {| state := state g; players := players g; dealer_index := dealer_index g;
     turn_index := turn_index g; pot := x; cur_bet := cur_bet g;
     since_raise := since_raise g; deck := deck g; options := options g |}.

Definition set_cur_bet (x : Z) (g : t) : t :=
  {| state := state g; players := players g; dealer_index := dealer_index g;
     turn_index := turn_index g; pot := pot g; cur_bet := x;
     since_raise := since_raise g; deck := deck g; options := options g |}.

Definition set_since_raise (n : nat) (g : t) : t :=
  {| state := state g; players := players g; dealer_index := dealer_index g;
     turn_index := turn_index g; pot := pot g; cur_bet := cur_bet g;
     since_raise := n; deck := deck g; options := options g |}.

(** Modelled from the spec: a player takes turns while neither folded nor
    all-in (section 4.2). *)
Definition eligible (p : Player.t) : bool :=
  negb (Player.folded p) && negb (Player.all_in p).

(** Modelled from the spec: the search of [advance_turn] (section 4.2),
    which is in [game.py]: the next seat after [i], in seating order and
    wrapping around, whose player is eligible; at most [steps] seats are
    tried. *)
Fixpoint seek (ps : list Player.t) (steps i : nat) : option nat :=
  match steps with
  | O => None
  | S k =>
      let j := (S i mod length ps)%nat in
      match ps !! j with
      | Some p => if eligible p then Some j else seek ps k j
      | None => None
      end
  end.

(** Modelled from the spec: [advance_turn] (section 4.2) moves the
    current-player pointer to the next eligible seat; with fewer than two
    eligible players it signals round completion instead, which leads to
    [SHOWDOWN] (section 4.1). *)
Definition advance_turn (g : t) : t :=
  if (length (List.filter eligible (players g)) <? 2)%nat then set_state SHOWDOWN g
  else
    match seek (players g) (length (players g)) (turn_index g) with
    | Some j => set_turn j g
    | None => g
    end.

(** Modelled from the spec: the round-completion rule of section 4.3:
    every player who has not folded has matched the table [cur_bet] or is
    all-in, and a full pass of the table has occurred since the last raise. *)
Definition matched (g : t) (p : Player.t) : bool :=
  Player.folded p || Player.all_in p || (Player.cur_bet p =? cur_bet g).

Definition round_complete (g : t) : bool :=
  forallb (matched g) (players g) && (length (players g) <=? since_raise g)%nat.

(** Modelled from the spec: the end of every betting action of section
    4.3, which is in [game.py]: the round ends when the completion rule
    holds, and the turn advances otherwise. *)
Definition next_turn (g : t) : t :=
  if round_complete g then set_state SHOWDOWN g else advance_turn g.

(** Modelled from the spec: the chip movement shared by the betting
    actions of section 4.3, which are in [game.py]: the actor's
    contribution becomes [target] and the difference is added to the pot. *)
Definition contribute (target : Z) (goes_all_in : bool) (actor : Player.t) (g : t) : t :=
  let actor' :=
    {| Player.user := Player.user actor; Player.name := Player.name actor;
       Player.cur_bet := target; Player.max_bet := Player.max_bet actor;
       Player.folded := Player.folded actor;
       Player.all_in := Player.all_in actor || goes_all_in;
       Player.hand := Player.hand actor |} in
  set_pot (pot g + (target - Player.cur_bet actor))
    (set_players (<[turn_index g := actor']> (players g)) g).

(** Modelled from the spec: [all_in] sets the actor's [cur_bet] to the
    stack and marks the actor all-in; the table [cur_bet] is raised to it
    when it is greater; the difference goes to the pot; the turn advances. *)
Definition all_in (g : t) : t * Py.res (list string) :=
  match current_player g with
  | Py.Raised e => (g, Py.Raised e)
  | Py.Ret actor =>
      let target := Player.max_bet actor in
      let g1 := contribute target true actor g in
      let g2 :=
        if cur_bet g <? target
        then set_since_raise 1 (set_cur_bet target g1)
        else set_since_raise (S (since_raise g1)) g1 in
      (next_turn g2, Py.Ret [Player.name actor +:+ " is all in."])
  end.

(** Modelled from the spec: [call] sets the actor's [cur_bet] to the table
    [cur_bet], capped at the stack (all-in when capped); the difference
    goes to the pot; the turn advances.  With no stack left the action
    resolves to [all_in] (edge policy of section 4.3). *)
Definition call (g : t) : t * Py.res (list string) :=
  match current_player g with
  | Py.Raised e => (g, Py.Raised e)
  | Py.Ret actor =>
      if Player.max_bet actor - Player.cur_bet actor =? 0 then all_in g
      else
        let target := Z.min (cur_bet g) (Player.max_bet actor) in
        let g1 := contribute target (Player.max_bet actor <=? cur_bet g) actor g in
        (next_turn (set_since_raise (S (since_raise g1)) g1),
         Py.Ret [Player.name actor +:+ " calls."])
  end.

(** Modelled from the spec: [raise_bet] sets the table [cur_bet] to its
    value plus [amount] and the actor's [cur_bet] to that value; the
    difference goes to the pot; the turn advances.  A player whose
    contribution reaches the stack is all-in; with no stack left the
    action resolves to [all_in]. *)
Definition raise_bet (g : t) (amount : Z) : t * Py.res (list string) :=
  match current_player g with
  | Py.Raised e => (g, Py.Raised e)
  | Py.Ret actor =>
      if Player.max_bet actor - Player.cur_bet actor =? 0 then all_in g
      else
        let target := cur_bet g + amount in
        let g1 := contribute target (target =? Player.max_bet actor) actor g in
        (next_turn (set_since_raise 1 (set_cur_bet target g1)),
         Py.Ret [Player.name actor +:+ " raises by $" +:+ Py.str amount +:+ "."])
  end.

(** Modelled from the spec: [check] advances the turn with no monetary
    change. *)
Definition check (g : t) : t * Py.res (list string) :=
  match current_player g with
  | Py.Raised e => (g, Py.Raised e)
  | Py.Ret actor =>
      (next_turn (set_since_raise (S (since_raise g)) g),
       Py.Ret [Player.name actor +:+ " checks."])
  end.

(** Modelled from the spec: [fold] marks the actor folded; when a single
    player who has not folded remains the round ends at once. *)
Definition fold (g : t) : t * Py.res (list string) :=
  match current_player g with
  | Py.Raised e => (g, Py.Raised e)
  | Py.Ret actor =>
      let actor' :=
        {| Player.user := Player.user actor; Player.name := Player.name actor;
           Player.cur_bet := Player.cur_bet actor; Player.max_bet := Player.max_bet actor;
           Player.folded := true; Player.all_in := Player.all_in actor;
           Player.hand := Player.hand actor |} in
      let g1 := set_players (<[turn_index g := actor']> (players g)) g in
      let standing := List.filter (fun p => negb (Player.folded p)) (players g1) in
      (if (length standing <=? 1)%nat then set_state SHOWDOWN g1
       else next_turn (set_since_raise (S (since_raise g1)) g1),
       Py.Ret [Player.name actor +:+ " folds."])
  end.

(** The name of the option that holds the configured minimum bet. *)
Variable minimum_option : string.

Definition set_hand_and_clear (cards : list string) (p : Player.t) : Player.t :=
  {| Player.user := Player.user p; Player.name := Player.name p;
     Player.cur_bet := 0; Player.max_bet := Player.max_bet p;
     Player.folded := Player.folded p; Player.all_in := Player.all_in p;
     Player.hand := cards |}.

(** Modelled from the spec: the drawing of [deal_hands], which is in
    [game.py]: two cards for each player in seating order, from the front
    of the deck, with the per-round bet cleared. *)
Fixpoint draw_hands (ps : list Player.t) (d : list string)
  : Py.res (list Player.t * list string) :=
  match ps with
  | [] => Py.Ret ([], d)
  | p :: rest =>
      match d with
      | c1 :: c2 :: d' =>
          match draw_hands rest d' with
          | Py.Raised e => Py.Raised e
          | Py.Ret (rest', d'') => Py.Ret (set_hand_and_clear [c1; c2] p :: rest', d'')
          end
      | _ => Py.Raised Py.IndexError
      end
  end.

(** Modelled from the spec: [deal_hands] (section 4.1, NO_HANDS) draws
    two cards per player from the deck, clears the per-round bets, sets
    the table [cur_bet] to the configured minimum and moves to [BETTING]. *)
Definition deal_hands (g : t) : t * Py.res (list string) :=
  match draw_hands (players g) (deck g) with
  | Py.Raised e => (g, Py.Raised e)
  | Py.Ret (ps, d) =>
      ({| state := BETTING; players := ps; dealer_index := dealer_index g;
          turn_index := default (dealer_index g) (seek ps (length ps) (dealer_index g));
          pot := pot g; cur_bet := default 0 (options g !! minimum_option);
          since_raise := 0; deck := d; options := options g |},
       Py.Ret ["The hands have been dealt!"])
  end.

(** Modelled from the spec: [start] moves a waiting game to [NO_HANDS];
    the dealer is the first seat (section 4.1). *)
Definition start (g : t) : t * Py.res (list string) :=
  ({| state := NO_HANDS; players := players g; dealer_index := 0;
      turn_index := turn_index g; pot := pot g; cur_bet := cur_bet g;
      since_raise := since_raise g; deck := deck g; options := options g |},
   Py.Ret ["The game has begun!"]).

(** Modelled from the spec: the constructor [Game(message)]: no session,
    no player, an empty pot, the options at their defaults. *)
Definition init (m : Message.t) : t :=
  {| state := NO_GAME; players := []; dealer_index := 0; turn_index := 0;
     pot := 0; cur_bet := 0; since_raise := 0; deck := shuffled;
     options := list_to_map ((fun e => (e.1, e.2.2)) <$> option_table) |}.

(** Modelled from the spec: [new_game] creates the session anew: an empty
    roster, an empty pot and a fresh deck. *)
Definition new_game (g : t) (m : Message.t) : t :=
  {| state := state g; players := []; dealer_index := 0; turn_index := 0;
     pot := 0; cur_bet := 0; since_raise := 0; deck := shuffled;
     options := options g |}.

(** Modelled from the spec: the read of a player's chip stack from the
    account store (section 1), which is in [game.py]; a user without an
    account has no chips. *)
Definition stack_of (table : list Account) (u : User.t) : Z :=
  match List.find (fun r => String.eqb (uid r) (Py.str (User.id u))) table with
  | Some r => chips r
  | None => 0
  end.

(** Modelled from the spec: [add_player] (section 4.2) fails when the
    identity is already present or the game is not in [WAITING]; a new
    player takes the last seat, with the stack read from the account
    store. *)
Definition add_player (table : list Account) (g : t) (u : User.t) : t * bool :=
  if is_player g u || negb (bool_decide (state g = WAITING)) then (g, false)
  else
    (set_players
       (players g ++
        [{| Player.user := u; Player.name := User.name u; Player.cur_bet := 0;
            Player.max_bet := stack_of table u; Player.folded := false;
            Player.all_in := false; Player.hand := [] |}]) g,
     true).

(** Modelled from the spec: [tell_hands], which is in [game.py]: each
    player is told their own hand in a direct message. *)
Definition tell_hands (g : t) : list Event :=
  (fun p => DirectMessage (Player.user p) (Py.join " " (Player.hand p))) <$> players g.

(** Modelled from the spec: the interface of [game.py] as the definitions
    above give it. *)
Definition api : API :=
  {| GAME_OPTIONS := (fun e => (e.1, e.2.1)) <$> option_table;
     Game.init := init;
     Game.new_game := new_game;
     Game.add_player := add_player;
     Game.start := start;
     Game.deal_hands := deal_hands;
     Game.call := call;
     Game.check := check;
     Game.raise_bet := raise_bet;
     Game.fold := fold;
     Game.all_in := all_in;
     Game.tell_hands := tell_hands |}.

End Engine.
End SpecGame.

(** ** A concrete environment

    Values for the parameters of the model, used to run it on examples:
    a prefix, the bot's user, Python's [int] on ASCII text, card assets
    of one size, column defaults, a deck in a fixed order and one option. *)

Module Sample.

Definition digit (c : ascii) : option Z :=
  let n := nat_of_ascii c in
  if ((48 <=? n) && (n <=? 57))%nat then Some (Z.of_nat (n - 48)) else None.

(** Decimal digits, with single underscores between digits as Python
    allows; [after_digit] tells whether the previous character was a digit. *)
Fixpoint digits (s : string) (acc : Z) (after_digit : bool) : option Z :=
  match s with
  | EmptyString => if after_digit then Some acc else None
  | String c s' =>
      match digit c with
      | Some d => digits s' (10 * acc + d) true
      | None =>
          if Ascii.eqb c "_" && after_digit then
            match s' with
            | EmptyString => None
            | _ => digits s' acc false
            end
          else None
      end
  end.

(** Python's [int(s)] on a token of ASCII text: an optional sign and
    decimal digits. *)
Definition int_ascii (s : string) : option Z :=
  match s with
  | String "-" s' => Z.opp <$> digits s' 0 false
  | String "+" s' => digits s' 0 false
  | _ => digits s 0 false
  end.

Definition ranks : list string :=
  ["2"; "3"; "4"; "5"; "6"; "7"; "8"; "9"; "10"; "J"; "Q"; "K"; "A"].
Definition suits : list string := ["S"; "H"; "D"; "C"].

(** The 52 card tokens, rank then suit. *)
Definition deck : list string :=
  r ← ranks; s ← suits; [r +:+ s].

(** An asset of 100 by 150 for each card token, and no other asset. *)
Definition open_asset (path : string) : option Image.t :=
  if decide (path ∈ (fun c => "Cards/" +:+ c +:+ ".png") <$> deck)
  then Some {| Image.file := path; Image.size := (100, 150) |}
  else None.

Definition env : Env :=
  {| prefix := "!";
     client_user := {| User.id := 0; User.name := "PokerBot" |};
     int := int_ascii;
     Image_open := open_asset;
     default_chips := 1000;
     default_experience := 0;
     default_level := 1;
     default_wins := 0 |}.

Definition option_table : list (string * (string * Z)) :=
  [("buy-in", ("The minimum buy-in", 10))].

Definition api : Game.API := SpecGame.api deck option_table "buy-in".

Definition alice : User.t := {| User.id := 1; User.name := "alice" |}.
Definition bob : User.t := {| User.id := 2; User.name := "bob" |}.
Definition carol : User.t := {| User.id := 3; User.name := "carol" |}.

(** A seated player with a stack and a contribution. *)
Definition seat (u : User.t) (stack bet : Z) : Player.t :=
  {| Player.user := u; Player.name := User.name u; Player.cur_bet := bet;
     Player.max_bet := stack; Player.folded := false; Player.all_in := false;
     Player.hand := [] |}.

(** A message of [u] in the channel 7. *)
Definition says (u : User.t) (text : string) : Message.t :=
  {| Message.author := u; Message.content := text;
     Message.channel := {| Channel.id := 7; Channel.type := "text" |} |}.

(** A game in state [s] with the given seats; the first seat deals and acts. *)
Definition table_of (s : GameState) (ps : list Player.t) (pot bet : Z) : Game.t :=
  {| Game.state := s; Game.players := ps; Game.dealer_index := 0;
     Game.turn_index := 0; Game.pot := pot; Game.cur_bet := bet;
     Game.since_raise := 0; Game.deck := deck;
     Game.options := {["buy-in" := 10]} |}.

End Sample.

(** Further sample values: an environment whose prefix has two
    characters, and a store that holds the account of bob. *)
Module MoreSamples.

Definition env_two : Env :=
  {| prefix := "p!";
     client_user := {| User.id := 0; User.name := "PokerBot" |};
     int := Sample.int_ascii;
     Image_open := Sample.open_asset;
     default_chips := 1000;
     default_experience := 0;
     default_level := 1;
     default_wins := 0 |}.

Definition bob_account : Account :=
  {| uid := "2"; chips := 250; experience := 40; level := 3; wins := 5 |}.

Definition empty_world : World := {| games := ∅; accounts := [] |}.

End MoreSamples.

(** ** Notions used in the statements *)

(** [c in s] for a character [c]. *)
Fixpoint contains (c : ascii) (s : string) : bool :=
  match s with
  | EmptyString => false
  | String d s' => Ascii.eqb d c || contains c s'
  end.

(** The positions of the delimiter in [s], in increasing order, the
    first character of [s] being at position [pos]. *)
Fixpoint dashes_from (s : string) (pos : nat) : list nat :=
  match s with
  | EmptyString => []
  | String d s' =>
      (if Ascii.eqb d "-" then [pos] else []) ++ dashes_from s' (S pos)
  end.

Definition dashes (s : string) : list nat := dashes_from s 0.

(** The card files cut from [line] between each position and the next. *)
Fixpoint between (line : string) (positions : list nat) : list string :=
  match positions with
  | [] => []
  | a :: rest =>
      match rest with
      | [] => []
      | b :: _ => ("Cards/" +:+ Py.slice line (a + 1) b +:+ ".png") :: between line rest
      end
  end.

(** One step of the loop over [cards], on the positions alone. *)
Definition cut (line : string) (positions : list nat) (i : nat) : Py.res string :=
  a <- Py.item positions i ;;
  b <- Py.item positions (i + 1) ;;
  Py.Ret ("Cards/" +:+ Py.slice line (a + 1) b +:+ ".png").

(** A list of card tokens as a hand line frames it after the opening
    delimiter: each token followed by the delimiter. *)
Fixpoint framed (tokens : list string) : string :=
  match tokens with
  | [] => EmptyString
  | token :: rest => token +:+ "-" +:+ framed rest
  end.

(** The positions of the delimiters of a framed token list whose opening
    delimiter is at [pos]. *)
Fixpoint boundaries (pos : nat) (tokens : list string) : list nat :=
  pos :: match tokens with
         | [] => []
         | token :: rest => boundaries (pos + 1 + Py.len token) rest
         end.

(** What [find_card] collects: for each line that holds the delimiter,
    the index of the line followed by the positions of the delimiter in it. *)
Fixpoint locations_from (index : nat) (messages : list string) : list nat :=
  match messages with
  | [] => []
  | message :: rest =>
      match dashes message with
      | [] => []
      | d => index :: d
      end ++ locations_from (S index) rest
  end.

Definition locations (messages : list string) : list nat := locations_from 0 messages.

(** The sum of a list of integers, from the right. *)
Definition total (l : list Z) : Z := foldr Z.add 0 l.

(** The sum of the players' current-round contributions. *)
Definition bets (g : Game.t) : Z := total (Player.cur_bet <$> Game.players g).

(** The betting actions of section 4.3 that move chips. *)
Inductive bet_action :=
| Call
| RaiseBet (amount : Z)
| AllIn.

(** The game after the engine has performed [a]. *)
Definition perform (g : Game.t) (a : bet_action) : Game.t :=
  match a with
  | Call => (SpecGame.call g).1
  | RaiseBet amount => (SpecGame.raise_bet g amount).1
  | AllIn => (SpecGame.all_in g).1
  end.

(** The game at every observation point of a sequence of actions: before
    the first action and after each one. *)
Fixpoint observe (g : Game.t) (actions : list bet_action) : list Game.t :=
  g :: match actions with
       | [] => []
       | a :: rest => observe (perform g a) rest
       end.

(** A message that [on_message] dispatches as the command [command] with
    the action [act]: it is not the bot's own, its first token is the
    prefix followed by a key of [commands], and its channel's type is
    not the text [dm]. *)
Definition dispatched `{Env} `{Game.API} (m : Message.t) (command : string)
    (act : action) : Prop :=
  User.eqb (Message.author m) client_user = false ∧
  Channel.type (Message.channel m) ≠ "dm" ∧
  ∃ token rest,
    Py.split (Message.content m) = token :: rest ∧
    Py.first_char token = Py.Ret prefix ∧
    command = Py.removeprefix prefix token ∧
    command_action command = Some act.

(** * Properties *)

(** ** Python built-ins *)

Lemma foldl_add_shift (l : list Z) (a : Z) : foldl Z.add a l = a + foldl Z.add 0 l.
Proof.
  revert a. induction l as [|x l IH]; intros a; simpl; [lia|].
  rewrite (IH (a + x)), (IH (0 + x)). lia.
Qed.

Lemma sum_total (l : list Z) : Py.sum l = total l.
Proof.
  unfold Py.sum, total. induction l as [|x l IH]; simpl; [done|].
  rewrite foldl_add_shift, IH. lia.
Qed.

Lemma total_cons (x : Z) (l : list Z) : total (x :: l) = x + total l.
Proof. done. Qed.

Lemma total_app (l k : list Z) : total (l ++ k) = total l + total k.
Proof. unfold total. induction l as [|x l IH]; simpl; lia. Qed.

Lemma foldl_max_ge (l : list Z) (a : Z) : a ≤ foldl Z.max a l.
Proof.
  revert a. induction l as [|x l IH]; intros a; simpl; [lia|].
  specialize (IH (Z.max a x)). lia.
Qed.

Lemma foldl_max_bound (l : list Z) (a x : Z) : x ∈ l → x ≤ foldl Z.max a l.
Proof.
  revert a. induction l as [|y l IH]; intros a Hx; simpl.
  - by apply elem_of_nil in Hx.
  - apply elem_of_cons in Hx as [->|Hx].
    + pose proof (foldl_max_ge l (Z.max a y)). lia.
    + by apply IH.
Qed.

Lemma foldl_max_attained (l : list Z) (a : Z) :
  foldl Z.max a l = a ∨ foldl Z.max a l ∈ l.
Proof.
  revert a. induction l as [|y l IH]; intros a; simpl; [by left|].
  destruct (IH (Z.max a y)) as [E|E].
  - rewrite E. destruct (Z.max_spec a y) as [[_ ->]|[_ ->]]; [right; left|by left].
  - right. by right.
Qed.

Lemma item_Ret {A} (l : list A) (i : nat) (x : A) : l !! i = Some x → Py.item l i = Py.Ret x.
Proof. unfold Py.item. by intros ->. Qed.

(** ** The delimiter scan of [find_card] *)

Lemma dashes_from_ge (s : string) (pos x : nat) : x ∈ dashes_from s pos → (pos ≤ x)%nat.
Proof.
  revert pos. induction s as [|d s IH]; intros pos Hx; simpl in Hx.
  - by apply elem_of_nil in Hx.
  - apply elem_of_app in Hx as [Hx|Hx].
    + destruct (Ascii.eqb d "-"); [|by apply elem_of_nil in Hx].
      apply list_elem_of_singleton in Hx. lia.
    + apply IH in Hx. lia.
Qed.

Lemma dashes_from_length (s : string) (pos : nat) :
  (length (dashes_from s pos) ≤ Py.len s)%nat.
Proof.
  unfold Py.len. revert pos. induction s as [|d s IH]; intros pos; simpl; [lia|].
  rewrite length_app. specialize (IH (S pos)).
  destruct (Ascii.eqb d "-"); simpl; lia.
Qed.

(** Around one of its elements, the list of positions is split into the
    smaller and the greater ones. *)
Lemma dashes_from_split (s : string) (pos i : nat) (before after : list nat) :
  dashes_from s pos = before ++ i :: after →
  (∀ x, x ∈ before → (x < i)%nat) ∧ (∀ x, x ∈ after → (i < x)%nat).
Proof.
  revert pos before. induction s as [|d s IH]; intros pos before E; simpl in E.
  - by destruct before.
  - destruct (Ascii.eqb d "-"); simpl in E.
    + destruct before as [|b before]; simpl in E.
      * injection E as <- <-. split; [intros x Hx; by apply elem_of_nil in Hx|].
        intros x Hx. apply dashes_from_ge in Hx. lia.
      * injection E as <- E. destruct (IH _ _ E) as [Hb Ha]. split; [|done].
        intros x Hx. apply elem_of_cons in Hx as [->|Hx]; [|by apply Hb].
        assert (i ∈ dashes_from s (S pos)) as Hi
          by (rewrite E; apply elem_of_app; right; left).
        apply dashes_from_ge in Hi. lia.
    + by apply (IH (S pos)).
Qed.

(** [s.find("-", start)] is the first recorded position at or after [start]. *)
Lemma find_go_dashes (s : string) (pos start : nat) :
  Py.find_go "-" s pos start = List.find (fun p => (start <=? p)%nat) (dashes_from s pos).
Proof.
  revert pos. induction s as [|d s IH]; intros pos; simpl; [done|].
  destruct (Ascii.eqb d "-"); simpl.
  - destruct (start <=? pos)%nat; simpl; [done|apply IH].
  - rewrite andb_false_r. apply IH.
Qed.

Lemma find_skip {A} (f : A → bool) (before after : list A) (x : A) :
  (∀ y, y ∈ before → f y = false) → f x = false → (∀ y, y ∈ after → f y = true) →
  List.find f (before ++ x :: after) = head after.
Proof.
  intros Hb Hx Ha. induction before as [|b before IH]; simpl.
  - rewrite Hx. destruct after as [|j after]; simpl; [done|].
    by rewrite (Ha j) by left.
  - rewrite (Hb b) by left. apply IH. intros y Hy. apply Hb. by right.
Qed.

Lemma find_after (l before after : list nat) (i : nat) :
  l = before ++ i :: after →
  (∀ x, x ∈ before → (x < i)%nat) → (∀ x, x ∈ after → (i < x)%nat) →
  List.find (fun p => (S i <=? p)%nat) l = head after.
Proof.
  intros -> Hb Ha. apply find_skip.
  - intros y Hy. apply Hb in Hy. apply Nat.leb_gt. lia.
  - apply Nat.leb_gt. lia.
  - intros y Hy. apply Ha in Hy. apply Nat.leb_le. lia.
Qed.

(** The [while] loop terminates within its bound and records the
    position it starts from and every later one. *)
Lemma find_card_while_spec (message : string) (after before : list nat)
    (i fuel : nat) (locates : list nat) :
  dashes message = before ++ i :: after →
  (length after < fuel)%nat →
  find_card_while fuel message i locates = Some (locates ++ i :: after).
Proof.
  revert before i fuel locates.
  induction after as [|j after IH]; intros before i fuel locates E Hfuel;
    (destruct fuel as [|fuel]; [simpl in Hfuel; lia|]); simpl;
    destruct (dashes_from_split _ _ _ _ _ E) as [Hb Ha];
    unfold Py.find; rewrite find_go_dashes;
    fold (dashes message);
    rewrite (find_after _ _ _ _ E Hb Ha); simpl.
  - done.
  - rewrite (IH (before ++ [i]) j fuel (locates ++ [i])).
    + by rewrite <- app_assoc.
    + by rewrite <- app_assoc.
    + simpl in Hfuel. lia.
Qed.

Lemma find_first (message : string) : Py.find "-" message 0 = head (dashes message).
Proof.
  unfold Py.find. rewrite find_go_dashes. fold (dashes message).
  by destruct (dashes message).
Qed.

Lemma find_card_for_spec (messages : list string) (index : nat) (locates : list nat) :
  find_card_for index messages locates = Some (locates ++ locations_from index messages).
Proof.
  revert index locates.
  induction messages as [|message rest IH]; intros index locates;
    cbn [find_card_for locations_from].
  - by rewrite app_nil_r.
  - rewrite find_first. destruct (dashes message) as [|i after] eqn:E; cbn [head].
    + apply IH.
    + rewrite (find_card_while_spec message after [] i _ _ E).
      * rewrite IH. f_equal. rewrite <- !app_assoc. done.
      * pose proof (dashes_from_length message 0) as L. fold (dashes message) in L.
        rewrite E in L. simpl in L. lia.
Qed.

(** [find_card] returns, and returns the locations of every line that
    holds the delimiter. *)
Lemma find_card_spec (messages : list string) : find_card messages = Some (locations messages).
Proof. unfold find_card. by rewrite find_card_for_spec. Qed.

Lemma contains_dashes (s : string) (pos : nat) :
  contains "-" s = false ↔ dashes_from s pos = [].
Proof.
  revert pos. induction s as [|d s IH]; intros pos; simpl; [done|].
  destruct (Ascii.eqb d "-"); simpl; [split; discriminate|apply IH].
Qed.

Lemma locations_none (messages : list string) (index : nat) :
  Forall (fun line => contains "-" line = false) messages →
  locations_from index messages = [].
Proof.
  intros Hall. revert index.
  induction Hall as [|line rest Hline _ IH]; intros index; cbn [locations_from].
  - done.
  - apply (contains_dashes line 0) in Hline. fold (dashes line) in Hline.
    by rewrite Hline, IH.
Qed.

(** The locations start with the index of the first line that holds the
    delimiter and with the positions in that line. *)
Lemma locations_first (before after : list string) (line : string) (index : nat) :
  Forall (fun l => contains "-" l = false) before →
  contains "-" line = true →
  ∃ p ps,
    dashes line = p :: ps ∧
    locations_from index (before ++ line :: after) =
      (index + length before)%nat :: (p :: ps) ++
      locations_from (S (index + length before)) after.
Proof.
  intros Hall Hline. revert index.
  induction Hall as [|l rest Hl _ IH]; intros index;
    cbn [locations_from app length].
  - destruct (dashes line) as [|p ps] eqn:E.
    + apply (contains_dashes line 0) in E. congruence.
    + exists p, ps. split; [done|]. by rewrite Nat.add_0_r.
  - apply (contains_dashes l 0) in Hl. fold (dashes l) in Hl. rewrite Hl. cbn [app].
    destruct (IH (S index)) as (p & ps & E & ->). exists p, ps. split; [done|].
    by replace (S index + length rest)%nat with (index + S (length rest))%nat by lia.
Qed.

(** ** The loops over cards and images *)

Lemma for_each_total {A B} (f : A → Py.res B) (l : list A) :
  Forall (fun x => ∃ y, f x = Py.Ret y) l → ∃ ys, for_each f l = Py.Ret ys.
Proof.
  induction 1 as [|x l [y Hy] _ [ys IH]]; simpl.
  - by eexists.
  - rewrite Hy. simpl. rewrite IH. simpl. by eexists.
Qed.

Lemma for_each_Forall2 {A B} (f : A → Py.res B) (l : list A) (ys : list B) :
  for_each f l = Py.Ret ys → Forall2 (fun x y => f x = Py.Ret y) l ys.
Proof.
  revert ys. induction l as [|x l IH]; intros ys E; simpl in E.
  - injection E as <-. constructor.
  - destruct (f x) as [y|] eqn:Hx; simpl in E; [|done].
    destruct (for_each f l) as [ys'|]; simpl in E; [|done].
    injection E as <-. constructor; [done|by apply IH].
Qed.

(** No index is out of range in the loop that cuts the card tokens. *)
Lemma card_files_total (messages : list string) (line_index : nat)
    (rest : list nat) (line : string) :
  messages !! line_index = Some line →
  ∃ cards, card_files messages (line_index :: rest) = Py.Ret cards.
Proof.
  intros Hline. unfold card_files. apply for_each_total.
  apply Forall_seq. intros i Hi. simpl in Hi. unfold card_file.
  assert (is_Some ((line_index :: rest) !! (i + 1)%nat)) as [a Ha].
  { apply lookup_lt_is_Some. simpl. lia. }
  assert (is_Some ((line_index :: rest) !! (i + 2)%nat)) as [b Hb].
  { apply lookup_lt_is_Some. simpl. lia. }
  rewrite (item_Ret _ 0 line_index) by done. simpl.
  rewrite (item_Ret _ _ _ Hline). simpl.
  rewrite (item_Ret _ _ _ Ha). simpl.
  rewrite (item_Ret _ _ _ Hb). simpl. by eexists.
Qed.

Lemma for_each_ext {A B} (f g : A → Py.res B) (l : list A) :
  (∀ x, x ∈ l → f x = g x) → for_each f l = for_each g l.
Proof.
  induction l as [|x l IH]; intros Hfg; simpl; [done|].
  rewrite (Hfg x) by left. rewrite IH; [done|]. intros y Hy. apply Hfg. by right.
Qed.

Lemma for_each_fmap {A B C} (f : B → Py.res C) (h : A → B) (l : list A) :
  for_each f (h <$> l) = for_each (fun x => f (h x)) l.
Proof.
  induction l as [|x l IH]; [done|].
  rewrite fmap_cons. cbn [for_each]. by rewrite IH.
Qed.

Lemma for_each_cut (line : string) (positions : list nat) :
  for_each (cut line positions) (seq 0 (length positions - 1)) =
    Py.Ret (between line positions).
Proof.
  induction positions as [|a rest IH]; [done|].
  destruct rest as [|b rest]; [done|].
  replace (length (a :: b :: rest) - 1)%nat with (S (length (b :: rest) - 1))
    by (simpl; lia).
  cbn [seq for_each between]. rewrite <- fmap_S_seq, for_each_fmap.
  rewrite (for_each_ext _ (cut line (b :: rest))) by done.
  rewrite IH. done.
Qed.

(** The card files are cut from the line at the head of the locations,
    between each later entry and the next; [N + 1] entries give [N] files. *)
Lemma card_files_between (messages : list string) (line_index : nat)
    (positions : list nat) (line : string) :
  messages !! line_index = Some line →
  card_files messages (line_index :: positions) = Py.Ret (between line positions).
Proof.
  intros Hline. unfold card_files. rewrite <- (for_each_cut line positions).
  replace (length (line_index :: positions) - 2)%nat with (length positions - 1)%nat
    by (simpl; lia).
  apply for_each_ext. intros i _. unfold card_file, cut.
  rewrite (item_Ret _ 0 line_index) by done. cbn [Py.bind].
  rewrite (item_Ret _ _ _ Hline). cbn [Py.bind].
  rewrite !Nat.add_1_r. by replace (i + 2)%nat with (S (S i)) by lia.
Qed.

Lemma between_length (line : string) (positions : list nat) :
  length (between line positions) = (length positions - 1)%nat.
Proof.
  induction positions as [|a rest IH]; [done|].
  destruct rest as [|b rest]; [done|].
  change (between line (a :: b :: rest))
    with (("Cards/" +:+ Py.slice line (a + 1) b +:+ ".png") :: between line (b :: rest)).
  rewrite length_cons, IH. simpl. lia.
Qed.

Lemma pop_middle (before after : list string) (line : string) :
  pop (length before) (before ++ line :: after) = Py.Ret (before ++ after).
Proof.
  unfold pop. rewrite delete_middle, length_app. simpl.
  by destruct (Nat.ltb_spec (length before) (length before + S (length after))); [|lia].
Qed.

Lemma paste_all_images (images : list Image.t) (x : Z) : (paste_all images x).*1 = images.
Proof.
  revert x. induction images as [|im images IH]; intros x; simpl; [done|by rewrite IH].
Qed.

(** The image at place [k] is pasted at the total width of the images
    before it, and at the top. *)
Lemma paste_all_lookup (images : list Image.t) (x : Z) (k : nat) (im : Image.t) (xy : Z * Z) :
  paste_all images x !! k = Some (im, xy) →
  images !! k = Some im ∧
  xy = (x + total ((fun i => (Image.size i).1) <$> take k images), 0).
Proof.
  revert x k. induction images as [|im' images IH]; intros x k E; [done|].
  destruct k as [|k]; cbn [paste_all] in E.
  - injection E as <- <-. split; [done|]. cbn. f_equal. lia.
  - destruct (IH _ _ E) as [H1 ->]. split; [done|].
    change (take (S k) (im' :: images)) with (im' :: take k images).
    rewrite fmap_cons, total_cons. f_equal. lia.
Qed.

Lemma total_nonneg (l : list Z) : (∀ x, x ∈ l → 0 < x) → 0 ≤ total l.
Proof.
  induction l as [|x l IH]; intros Hpos; [done|]. rewrite total_cons.
  assert (0 < x) by (apply Hpos; left).
  assert (0 ≤ total l) by (apply IH; intros y Hy; apply Hpos; by right).
  lia.
Qed.

Lemma total_take_lt (l : list Z) (j k : nat) :
  (∀ x, x ∈ l → 0 < x) → (j < k ≤ length l)%nat →
  total (take j l) < total (take k l).
Proof.
  revert j k. induction l as [|x l IH]; intros j k Hpos Hjk; simpl in Hjk; [lia|].
  assert (0 < x) by (apply Hpos; left).
  assert (∀ y, y ∈ l → 0 < y) as Hl by (intros y Hy; apply Hpos; by right).
  destruct k as [|k]; [lia|].
  change (take (S k) (x :: l)) with (x :: take k l). rewrite total_cons.
  destruct j as [|j].
  - assert (0 ≤ total (take k l)) as Hk.
    { apply total_nonneg. intros y Hy. apply Hl.
      apply elem_of_take in Hy as (i & Hi & _). by apply (list_elem_of_lookup_2 _ i). }
    change (total (take 0 (x :: l))) with 0. lia.
  - change (take (S j) (x :: l)) with (x :: take j l). rewrite total_cons.
    assert (j < k ≤ length l)%nat as Hjk' by lia.
    specialize (IH j k Hl Hjk'). lia.
Qed.

(** ** The composed image *)

Section Renderer.
Context `{Env}.

(** C5.  When the tokens (asset paths) resolve to the images [images],
    in token order, the composition succeeds; the composed image is as
    wide as the sum of the widths and as high as the greatest height;
    the images are pasted in token order, the image at place [k] at the
    x-offset that is the total width of the images before it and at the
    y-offset 0; with positive widths the x-offsets increase strictly. *)
Theorem compose_width_height_layout (tokens : list string) (images : list Image.t) :
  for_each open_image tokens = Py.Ret images →
  images ≠ [] →
  ∃ new_im,
    compose images = Py.Ret new_im ∧
    Forall2 (fun token im => Image_open token = Some im) tokens images ∧
    (canvas_size new_im).1 = total ((fun i => (Image.size i).1) <$> images) ∧
    (∀ im, im ∈ images → (Image.size im).2 ≤ (canvas_size new_im).2) ∧
    (∃ im, im ∈ images ∧ (Image.size im).2 = (canvas_size new_im).2) ∧
    (pasted new_im).*1 = images ∧
    (∀ k im xy, pasted new_im !! k = Some (im, xy) →
       images !! k = Some im ∧
       xy = (total ((fun i => (Image.size i).1) <$> take k images), 0)) ∧
    ((∀ im, im ∈ images → 0 < (Image.size im).1) →
     ∀ j k pj pk, (j < k)%nat →
       pasted new_im !! j = Some pj → pasted new_im !! k = Some pk →
       pj.2.1 < pk.2.1).
Proof.
  intros Hopen Hne. destruct images as [|im0 images]; [done|].
  exists {| mode := "RGB";
            canvas_size :=
              (Py.sum ((fun i => (Image.size i).1) <$> im0 :: images),
               foldl Z.max (Image.size im0).2 ((fun i => (Image.size i).2) <$> images));
            pasted := paste_all (im0 :: images) 0 |}.
  split; [done|]. cbn [canvas_size pasted fst snd].
  set (imgs := im0 :: images) in *.
  assert (∀ k im xy, paste_all imgs 0 !! k = Some (im, xy) →
            imgs !! k = Some im ∧
            xy = (total ((fun i => (Image.size i).1) <$> take k imgs), 0)) as Hlayout.
  { intros k im xy E. apply paste_all_lookup in E as [E ->]. split; [done|].
    by rewrite Z.add_0_l. }
  split; [|split; [|split; [|split; [|split; [|split]]]]].
  - apply for_each_Forall2 in Hopen. eapply Forall2_impl; [exact Hopen|].
    intros token im. unfold open_image. destruct (Image_open token); congruence.
  - apply sum_total.
  - intros im Him. subst imgs.
    apply elem_of_cons in Him as [->|Him].
    + apply foldl_max_ge.
    + apply foldl_max_bound. apply list_elem_of_fmap. by exists im.
  - subst imgs.
    destruct (foldl_max_attained ((fun i => (Image.size i).2) <$> images)
                (Image.size im0).2) as [E|E].
    + exists im0. split; [left|]. by rewrite E.
    + apply list_elem_of_fmap in E as (im & E & Him). exists im. split; [by right|done].
  - apply paste_all_images.
  - exact Hlayout.
  - intros Hpos j k [imj xyj] [imk xyk] Hjk Ej Ek.
    apply Hlayout in Ej as [_ ->]. apply Hlayout in Ek as [Ek ->]. cbn [fst snd].
    apply lookup_lt_Some in Ek.
    rewrite !fmap_take. apply total_take_lt.
    + intros x Hx. apply list_elem_of_fmap in Hx as (im & -> & Him). by apply Hpos.
    + rewrite length_fmap. lia.
Qed.

End Renderer.

(** ** What is sent for the lines of a handler *)

Section Delivery.
Context `{Env}.

(** Without any delimiter the lines go out as one text. *)
Lemma deliver_plain (ch : Z) (messages : list string) :
  Forall (fun line => contains "-" line = false) messages →
  deliver ch messages = ([Send ch (Py.join Py.newline messages)], Done).
Proof.
  intros Hall. unfold deliver. rewrite find_card_spec.
  unfold locations. by rewrite locations_none.
Qed.

(** With a delimiter, the first line that holds it is taken out, the
    other lines go out as one text, and the image follows on its own. *)
Lemma deliver_cards (ch : Z) (before after : list string) (line : string) :
  Forall (fun l => contains "-" l = false) before →
  contains "-" line = true →
  ∃ cards,
    card_files (before ++ line :: after) (locations (before ++ line :: after))
      = Py.Ret cards ∧
    deliver ch (before ++ line :: after) =
      match (images <- for_each open_image cards ;; compose images) with
      | Py.Ret new_im =>
          ([Send ch (Py.join Py.newline (before ++ after));
            SendFile ch new_im "new_im.png"], Done)
      | Py.Raised e => ([Send ch (Py.join Py.newline (before ++ after))], Crashed e)
      end.
Proof.
  intros Hall Hline. unfold deliver. rewrite find_card_spec. unfold locations.
  destruct (locations_first before after line 0 Hall Hline) as (p & ps & _ & ->).
  cbn [Nat.add].
  destruct (card_files_total (before ++ line :: after) (length before)
              ((p :: ps) ++ locations_from (S (length before)) after) line)
    as [cards Hcards].
  { by rewrite list_lookup_middle. }
  exists cards. split; [done|]. rewrite Hcards. cbn [Py.bind Py.item lookup list_lookup].
  rewrite pop_middle. cbn [Py.bind].
  by destruct (Py.bind (for_each open_image cards) (λ images, compose images)).
Qed.

(** What the delivery step does on every reply.  When no line holds the
    delimiter the image step is skipped and all lines are sent unchanged
    as one text.  When some line holds it, the first such line is
    removed, be it a hand line or not, the remaining lines are sent as
    one text, and then the composed image is sent as a message of its
    own; when the images cannot be opened or composed the run stops after
    the text. *)
Theorem deliver_text_and_image (ch : Z) (messages : list string) :
  (Forall (fun line => contains "-" line = false) messages →
   deliver ch messages = ([Send ch (Py.join Py.newline messages)], Done)) ∧
  (∀ before line after,
     messages = before ++ line :: after →
     Forall (fun l => contains "-" l = false) before →
     contains "-" line = true →
     ∃ cards,
       card_files messages (locations messages) = Py.Ret cards ∧
       deliver ch messages =
         match (images <- for_each open_image cards ;; compose images) with
         | Py.Ret new_im =>
             ([Send ch (Py.join Py.newline (before ++ after));
               SendFile ch new_im "new_im.png"], Done)
         | Py.Raised e => ([Send ch (Py.join Py.newline (before ++ after))], Crashed e)
         end).
Proof.
  split; [apply deliver_plain|].
  intros before line after -> Hall Hline. by apply deliver_cards.
Qed.

End Delivery.

(** ** The handlers *)

Section HandlerProperties.
Context `{Env} `{Game.API}.

Import Message.

(** C7.  In [NO_HANDS] the deal goes through to [deal_hands] when the
    requester is the dealer; another requester gets two lines that name
    the requester and the dealer, and the game is returned as it was.
    In every other state the reply is the line of that state and the
    game is returned as it was. *)
Theorem deal_hand_guard (g : Game.t) (m : Message.t) :
  (Game.state g = NO_HANDS →
   (∀ dealer, Game.dealer g = Py.Ret dealer →
      (User.eqb (Player.user dealer) (author m) = true →
       deal_hand g m = Game.deal_hands g) ∧
      (User.eqb (Player.user dealer) (author m) = false →
       deal_hand g m =
         (g, Py.Ret ["You aren't the dealer, " +:+ User.name (author m) +:+ ".";
                     "Please wait for " +:+ User.name (Player.user dealer) +:+
                     " to " +:+ prefix +:+ "deal."]))) ∧
   (∀ e, Game.dealer g = Py.Raised e → deal_hand g m = (g, Py.Raised e))) ∧
  (Game.state g ≠ NO_HANDS →
   deal_hand g m =
     (g, Py.Ret [match Game.state g with
                 | NO_GAME => "No game has been started for you to deal. " +:+
                              "Message " +:+ prefix +:+ "newgame to start one."
                 | WAITING => "You can't deal because the game hasn't started yet."
                 | _ => "The cards have already been dealt."
                 end])).
Proof.
  unfold deal_hand. split.
  - intros ->. repeat case_decide; try done. split.
    + intros dealer ->. split; intros ->; done.
    + by intros e ->.
  - intros Hstate. destruct (Game.state g); repeat case_decide; done.
Qed.

(** C8.  For a [set] command with an option and a value, each refusal
    names the constraint that is broken and returns the game, its option
    mapping included, as it was: an option that is not in [GAME_OPTIONS]
    is answered with the line that says it is not an option; a known
    option with a value that is no integer with the line that says the
    value is not a valid integer; a known option with a negative integer
    with the line that says it cannot be set to a negative value.
    Otherwise the option is set to the value, the reply says so, and
    nothing else in the game changes. *)
Theorem set_option_checks (g : Game.t) (m : Message.t)
    (cmd option value : string) (more : list string) :
  Py.split (content m) = cmd :: option :: value :: more →
  (option ∉ Game.GAME_OPTIONS.*1 →
   set_option g m =
     (g, Py.Ret ["'" +:+ option +:+ "' is not an option. Message !options to see " +:+
                 "the list of options."])) ∧
  (option ∈ Game.GAME_OPTIONS.*1 → int value = None →
   set_option g m =
     (g, Py.Ret [option +:+ " must be set to an integer, and '" +:+ value +:+
                 "' is not a valid integer."])) ∧
  (∀ val, option ∈ Game.GAME_OPTIONS.*1 → int value = Some val → val < 0 →
     set_option g m =
       (g, Py.Ret ["Cannot set " +:+ option +:+ " to a negative value!"])) ∧
  ((option ∉ Game.GAME_OPTIONS.*1 ∨ int value = None ∨
    (∃ val, int value = Some val ∧ val < 0)) →
   ∃ line, set_option g m = (g, Py.Ret [line]) ∧
           Game.options (set_option g m).1 = Game.options g) ∧
  (∀ val, option ∈ Game.GAME_OPTIONS.*1 → int value = Some val → 0 ≤ val →
     set_option g m =
       (Game.set_options (<[option := val]> (Game.options g)) g,
        Py.Ret ["The " +:+ option +:+ " is now set to " +:+ value +:+ "."]) ∧
     Game.options (set_option g m).1 !! option = Some val ∧
     (∀ other, other ≠ option →
        Game.options (set_option g m).1 !! other = Game.options g !! other)).
Proof.
  intros Htokens. unfold set_option. rewrite Htokens.
  cbn [length Nat.eqb Py.item lookup list_lookup].
  split; [|split; [|split; [|split]]].
  - intros Hunknown. by case_decide.
  - intros Hknown Hint. rewrite Hint. by case_decide.
  - intros val Hknown Hint Hneg. rewrite Hint.
    case_decide; [done|]. by destruct (Z.ltb_spec val 0); [|lia].
  - intros Hbad. case_decide as Hknown; [by eexists|].
    destruct (int value) as [val|] eqn:Hint; [|by eexists].
    destruct (Z.ltb_spec val 0); [by eexists|].
    destruct Hbad as [Hbad|[Hbad|(v & Hv & Hneg)]]; [done|done|].
    injection Hv as <-. lia.
  - intros val Hknown Hint Hpos. rewrite Hint.
    case_decide; [done|]. destruct (Z.ltb_spec val 0); [lia|].
    cbn [fst Game.set_options Game.options]. split; [done|]. split.
    + apply lookup_insert_eq.
    + intros other Hother. by apply lookup_insert_ne.
Qed.

Lemma select_uid_app (table more : list Account) (u : string) :
  select_uid (table ++ more) u =
    match select_uid table u with
    | Some r => Some r
    | None => select_uid more u
    end.
Proof.
  unfold select_uid. induction table as [|r table IH]; simpl; [done|].
  by destruct (String.eqb (uid r) u).
Qed.

(** After a registration the identity is in the store. *)
Lemma register_registered (table : list Account) (m : Message.t) :
  is_Some (select_uid (register table m).1 (Py.str (User.id (author m)))).
Proof.
  unfold register.
  destruct (select_uid table (Py.str (User.id (author m)))) as [r|] eqn:E; cbn [fst].
  - by rewrite E.
  - rewrite select_uid_app, E. unfold select_uid, new_account. simpl.
    by rewrite String.eqb_refl.
Qed.

(** C9.  The store is keyed by the identity of the author: a first
    registration appends the row of that identity; a registration by the
    same identity that follows writes nothing and says that the player
    has registered already; so registering twice leaves the store as
    registering once does. *)
Theorem register_idempotent (table : list Account) (m m' : Message.t) :
  User.id (author m') = User.id (author m) →
  (select_uid table (Py.str (User.id (author m))) = None →
   register table m =
     (table ++ [new_account (Py.str (User.id (author m)))],
      Py.Ret ["Thank you for registering!"]) ∧
   uid (new_account (Py.str (User.id (author m)))) = Py.str (User.id (author m))) ∧
  register (register table m).1 m' =
    ((register table m).1, Py.Ret ["You already have registered!"]) ∧
  (register (register table m).1 m').1 = (register table m).1.
Proof.
  intros Hid. split; [|split].
  - intros E. unfold register. by rewrite E.
  - destruct (register_registered table m) as [r Hr].
    unfold register at 1. by rewrite Hid, Hr.
  - destruct (register_registered table m) as [r Hr].
    unfold register at 1. by rewrite Hid, Hr.
Qed.

(** In [WAITING], a requester who has joined is passed on to [start]:
    the number of players plays no part. *)
Lemma start_game_member (g : Game.t) (m : Message.t) :
  Game.state g = WAITING →
  Game.is_player g (author m) = true →
  start_game g m = Game.start g.
Proof.
  intros Hstate Hmember. unfold start_game. rewrite Hstate, Hmember.
  repeat case_decide; try done.
  by destruct (Z.ltb_spec (Z.of_nat (length (Game.players g))) 0); [lia|].
Qed.

(** In [WAITING], a requester who has not joined is refused and the game
    is returned as it was. *)
Lemma start_game_stranger (g : Game.t) (m : Message.t) :
  Game.state g = WAITING →
  Game.is_player g (author m) = false →
  start_game g m =
    (g, Py.Ret ["You are not a part of that game yet, " +:+ User.name (author m) +:+ ".";
                "Please message " +:+ prefix +:+ "join if you are interested in playing."]).
Proof.
  intros Hstate Hmember. unfold start_game. rewrite Hstate, Hmember.
  by repeat case_decide.
Qed.

(** X6.  For the current player and an integer amount, the handler refuses
    the raise when the table bet has reached the stack or the raise
    would exceed it, and returns the game as it was; every other amount,
    positive or not, is passed on to the method [raise_bet]. *)
Lemma raise_bet_guard (g : Game.t) (m : Message.t) (current : Player.t)
    (cmd token : string) (more : list string) (amount : Z) :
  Game.state g ≠ NO_GAME → Game.state g ≠ WAITING → Game.state g ≠ NO_HANDS →
  Game.is_player g (author m) = true →
  Game.current_player g = Py.Ret current →
  User.eqb (Player.user current) (author m) = true →
  Py.split (content m) = cmd :: token :: more →
  int token = Some amount →
  (Game.cur_bet g < Player.max_bet current ∧
   Game.cur_bet g + amount ≤ Player.max_bet current →
   raise_bet g m = caught token (Game.raise_bet g amount)) ∧
  (Player.max_bet current ≤ Game.cur_bet g ∨
   Player.max_bet current < Game.cur_bet g + amount →
   ∃ lines, raise_bet g m = (g, Py.Ret lines)).
Proof.
  intros H1 H2 H3 Hmember Hcur Hturn Htokens Hint.
  unfold raise_bet. rewrite Hmember, Hcur, Hturn, Htokens.
  cbn [negb length Nat.ltb Nat.leb Py.item lookup list_lookup]. rewrite Hint.
  repeat case_decide; try done. split.
  - intros [Hlt Hle].
    destruct (Z.geb_spec (Game.cur_bet g) (Player.max_bet current)); [lia|].
    destruct (Z.gtb_spec (Game.cur_bet g + amount) (Player.max_bet current)); [lia|].
    done.
  - intros Hbad.
    destruct (Z.geb_spec (Game.cur_bet g) (Player.max_bet current)); [by eexists|].
    destruct (Z.gtb_spec (Game.cur_bet g + amount) (Player.max_bet current));
      [by eexists|lia].
Qed.

End HandlerProperties.

(** ** The dispatcher *)

Section Dispatcher.
Context `{Env} `{Game.API}.

Import Message.

(** What [on_message] does with a dispatched command: the game of the
    channel is taken with [setdefault], the action runs on it, and the
    game the action leaves is the channel's entry afterwards. *)
Lemma on_message_dispatched (w : World) (m : Message.t) (command : string) (act : action) :
  dispatched m command act →
  ∃ events st,
    on_message w m =
      ({| games :=
            <[Channel.id (channel m) :=
                (act (accounts w)
                   (setdefault (games w) (Channel.id (channel m)) (Game.init m)).2 m).1.2]>
              (setdefault (games w) (Channel.id (channel m)) (Game.init m)).1;
          accounts :=
            (act (accounts w)
               (setdefault (games w) (Channel.id (channel m)) (Game.init m)).2 m).1.1 |},
       events, st).
Proof.
  intros (Hbot & Hdm & token & rest & Htokens & Hfirst & -> & Hact).
  unfold on_message. rewrite Hbot, Htokens.
  cbn [length Nat.eqb Py.item lookup list_lookup Py.bind]. rewrite Hfirst. cbn [Py.bind].
  repeat case_decide; try done. rewrite Hact.
  destruct (setdefault (games w) (Channel.id (channel m)) (Game.init m)) as [games1 game].
  cbn [fst snd].
  destruct (act (accounts w) game m) as [[table' game'] r]. cbn [fst snd].
  destruct r as [messages|e]; [|by eexists _, _].
  destruct (respond _ _ game' messages) as [events st]. by eexists _, _.
Qed.

(** C10.  For a dispatched command in a channel that has no game yet,
    [setdefault] stores a fresh [Game] for the channel in the map it
    returns and hands that same game on; the action of the command,
    whatever the command, runs on it afterwards, and the game the action
    leaves is the entry of the channel in the map [setdefault] returned;
    the games of the other channels stay as they were.  In a channel
    that has a game, [setdefault] returns the map as it was and that
    game.  After any dispatched command the channel has a game. *)
Theorem on_message_creates_game (w : World) (m : Message.t) (command : string)
    (act : action) :
  dispatched m command act →
  (games w !! Channel.id (channel m) = None →
   setdefault (games w) (Channel.id (channel m)) (Game.init m) =
     (<[Channel.id (channel m) := Game.init m]> (games w), Game.init m) ∧
   (setdefault (games w) (Channel.id (channel m)) (Game.init m)).1
     !! Channel.id (channel m) = Some (Game.init m) ∧
   ∃ w' events st,
     on_message w m = (w', events, st) ∧
     games w' =
       <[Channel.id (channel m) := (act (accounts w) (Game.init m) m).1.2]>
         (setdefault (games w) (Channel.id (channel m)) (Game.init m)).1 ∧
     games w' !! Channel.id (channel m) =
       Some (act (accounts w) (Game.init m) m).1.2 ∧
     (∀ ch', ch' ≠ Channel.id (channel m) → games w' !! ch' = games w !! ch')) ∧
  (∀ g, games w !! Channel.id (channel m) = Some g →
     setdefault (games w) (Channel.id (channel m)) (Game.init m) = (games w, g) ∧
     ∃ w' events st,
       on_message w m = (w', events, st) ∧
       games w' = <[Channel.id (channel m) := (act (accounts w) g m).1.2]> (games w)) ∧
  (setdefault (games w) (Channel.id (channel m)) (Game.init m)).1
    !! Channel.id (channel m) =
    Some (setdefault (games w) (Channel.id (channel m)) (Game.init m)).2 ∧
  (∃ w' events st,
     on_message w m = (w', events, st) ∧
     is_Some (games w' !! Channel.id (channel m))).
Proof.
  intros Hd. destruct (on_message_dispatched w m command act Hd) as (events & st & E).
  split; [|split; [|split]].
  - intros Hnone. revert E. unfold setdefault. rewrite Hnone. cbn [fst snd]. intros E.
    split; [done|]. split; [apply lookup_insert_eq|].
    eexists _, events, st. split; [exact E|]. cbn [games]. split; [done|]. split.
    + apply lookup_insert_eq.
    + intros ch' Hne. by rewrite !lookup_insert_ne.
  - intros g Hsome. revert E. unfold setdefault. rewrite Hsome. cbn [fst snd]. intros E.
    split; [done|]. by eexists _, events, st.
  - unfold setdefault.
    destruct (games w !! Channel.id (channel m)) as [g|] eqn:Hg; cbn [fst snd]; [done|].
    apply lookup_insert_eq.
  - eexists _, events, st. split; [exact E|]. cbn [games].
    rewrite lookup_insert_eq. by eexists.
Qed.

End Dispatcher.

(** ** Pot conservation in the engine of the specification *)

Section PotConservation.
Import SpecGame.

Lemma total_bets_insert (ps : list Player.t) (i : nat) (p p' : Player.t) :
  ps !! i = Some p →
  total (Player.cur_bet <$> <[i := p']> ps) =
    total (Player.cur_bet <$> ps) - Player.cur_bet p + Player.cur_bet p'.
Proof.
  revert i. induction ps as [|q ps IH]; intros i E; [done|].
  destruct i as [|i]; cbn [lookup list_lookup] in E.
  - injection E as ->. cbn [insert list_insert]. rewrite !fmap_cons, !total_cons. lia.
  - change (<[S i := p']> (q :: ps)) with (q :: <[i := p']> ps).
    rewrite !fmap_cons, !total_cons, (IH i E). lia.
Qed.

(** The difference between the pot and the sum of the bets is what the
    pot carried into the round; a contribution leaves it as it is. *)
Lemma contribute_conserves (target : Z) (flag : bool) (actor : Player.t) (g : Game.t) :
  Game.players g !! Game.turn_index g = Some actor →
  Game.pot (contribute target flag actor g) - bets (contribute target flag actor g)
    = Game.pot g - bets g.
Proof.
  intros E. unfold contribute, bets. cbn [Game.pot Game.players set_pot set_players].
  rewrite (total_bets_insert _ _ _ _ E). cbn [Player.cur_bet]. lia.
Qed.

Lemma advance_turn_chips (g : Game.t) :
  Game.pot (advance_turn g) = Game.pot g ∧ Game.players (advance_turn g) = Game.players g.
Proof.
  unfold advance_turn.
  destruct (length (List.filter eligible (Game.players g)) <? 2)%nat; [done|].
  by destruct (seek _ _ _).
Qed.

(** Ending the round or advancing the turn moves no chips. *)
Lemma next_turn_chips (g : Game.t) :
  Game.pot (next_turn g) = Game.pot g ∧ Game.players (next_turn g) = Game.players g.
Proof.
  unfold next_turn. destruct (round_complete g); [done|apply advance_turn_chips].
Qed.

Lemma next_turn_conserves (g : Game.t) :
  Game.pot (next_turn g) - bets (next_turn g) = Game.pot g - bets g.
Proof. unfold bets. by destruct (next_turn_chips g) as [-> ->]. Qed.

Lemma current_player_lookup (g : Game.t) (actor : Player.t) :
  Game.current_player g = Py.Ret actor →
  Game.players g !! Game.turn_index g = Some actor.
Proof.
  unfold Game.current_player, Py.item.
  destruct (Game.players g !! Game.turn_index g); congruence.
Qed.

Lemma all_in_conserves (g : Game.t) :
  Game.pot (all_in g).1 - bets (all_in g).1 = Game.pot g - bets g.
Proof.
  unfold all_in. destruct (Game.current_player g) as [actor|e] eqn:E; [|done].
  apply current_player_lookup in E. cbn [fst]. rewrite next_turn_conserves.
  rewrite <- (contribute_conserves (Player.max_bet actor) true actor g E).
  by destruct (Game.cur_bet g <? Player.max_bet actor).
Qed.

Lemma call_conserves (g : Game.t) :
  Game.pot (call g).1 - bets (call g).1 = Game.pot g - bets g.
Proof.
  unfold call. destruct (Game.current_player g) as [actor|e] eqn:E; [|done].
  destruct (Player.max_bet actor - Player.cur_bet actor =? 0); [apply all_in_conserves|].
  apply current_player_lookup in E. cbn [fst]. rewrite next_turn_conserves.
  by rewrite <- (contribute_conserves
                   (Z.min (Game.cur_bet g) (Player.max_bet actor))
                   (Player.max_bet actor <=? Game.cur_bet g) actor g E).
Qed.

Lemma raise_bet_conserves (g : Game.t) (amount : Z) :
  Game.pot (raise_bet g amount).1 - bets (raise_bet g amount).1 = Game.pot g - bets g.
Proof.
  unfold raise_bet. destruct (Game.current_player g) as [actor|e] eqn:E; [|done].
  destruct (Player.max_bet actor - Player.cur_bet actor =? 0); [apply all_in_conserves|].
  apply current_player_lookup in E. cbn [fst]. rewrite next_turn_conserves.
  by rewrite <- (contribute_conserves
                   (Game.cur_bet g + amount)
                   (Game.cur_bet g + amount =? Player.max_bet actor) actor g E).
Qed.

Lemma perform_conserves (g : Game.t) (a : bet_action) :
  Game.pot (perform g a) - bets (perform g a) = Game.pot g - bets g.
Proof.
  destruct a; [apply call_conserves|apply raise_bet_conserves|apply all_in_conserves].
Qed.

(** C3.  When the pot is the sum of the players' current bets plus the
    pot carried over from prior streets, it is so at every observation
    point of every sequence of [call], [raise_bet] and [all_in] actions. *)
Theorem pot_conservation (carried : Z) (g : Game.t) (actions : list bet_action) :
  Game.pot g = bets g + carried →
  Forall (fun g' => Game.pot g' = bets g' + carried) (observe g actions).
Proof.
  revert g. induction actions as [|a actions IH]; intros g Hg; cbn [observe].
  - by constructor.
  - constructor; [done|]. apply IH.
    pose proof (perform_conserves g a). lia.
Qed.

End PotConservation.

(** ** The model on concrete inputs *)

Section Examples.
Import Sample.
#[local] Existing Instance env.
#[local] Existing Instance api.

(** C1 (the code accepts what the claim excludes).  A waiting game with
    the single player alice: her [start] is passed on to the method
    [start], whatever the engine, and with the engine of the
    specification the game moves to [NO_HANDS]. *)
Lemma start_game_single_player :
  length (Game.players (table_of WAITING [seat alice 100 0] 0 0)) = 1%nat ∧
  (∀ A : Game.API,
     @start_game env A (table_of WAITING [seat alice 100 0] 0 0) (says alice "!start")
     = @Game.start A (table_of WAITING [seat alice 100 0] 0 0)) ∧
  (start_game (table_of WAITING [seat alice 100 0] 0 0) (says alice "!start")).2
    = Py.Ret ["The game has begun!"] ∧
  Game.state (start_game (table_of WAITING [seat alice 100 0] 0 0)
                (says alice "!start")).1 = NO_HANDS.
Proof.
  split; [done|]. split; [|split; by vm_compute].
  intros A. by apply start_game_member.
Qed.

(** C2 (the code accepts what the claim excludes).  Alice is the current
    player, the table bet is 10 and her stack is 100: a raise by 0 and a
    raise by -5 are passed on to the method [raise_bet], whatever the
    engine; with the engine of the specification the raise by -5 moves
    her bet, the table bet and the pot. *)
Lemma raise_bet_nonpositive_amount :
  (∀ A : Game.API,
     @raise_bet env A (table_of BETTING [seat alice 100 0; seat bob 100 0] 0 10)
       (says alice "!raise 0")
     = caught "0"
         (@Game.raise_bet A (table_of BETTING [seat alice 100 0; seat bob 100 0] 0 10) 0)) ∧
  (∀ A : Game.API,
     @raise_bet env A (table_of BETTING [seat alice 100 0; seat bob 100 0] 0 10)
       (says alice "!raise -5")
     = caught "-5"
         (@Game.raise_bet A (table_of BETTING [seat alice 100 0; seat bob 100 0] 0 10) (-5))) ∧
  (raise_bet (table_of BETTING [seat alice 100 0; seat bob 100 0] 0 10)
     (says alice "!raise -5")).2 = Py.Ret ["alice raises by $-5."] ∧
  Game.pot (raise_bet (table_of BETTING [seat alice 100 0; seat bob 100 0] 0 10)
              (says alice "!raise -5")).1 = 5 ∧
  Game.cur_bet (raise_bet (table_of BETTING [seat alice 100 0; seat bob 100 0] 0 10)
                  (says alice "!raise -5")).1 = 5.
Proof.
  split; [|split; [|split; [|split]]]; by vm_compute.
Qed.

(** C4 (the code does what the claim excludes).  The first line holds
    the tokens AS and KD; the delimiter in the second line adds the index
    of that line and a position to the locations, and two further card
    files are cut from the first line with them. *)
Lemma find_card_later_line :
  find_card ["Your hand: -AS-KD-"; "It is jean-luc's turn."]
    = Some [0; 11; 14; 17; 1; 10]%nat ∧
  find_card ["Your hand: -AS-KD-"; "It is his turn."] = Some [0; 11; 14; 17]%nat ∧
  card_files ["Your hand: -AS-KD-"; "It is his turn."] [0; 11; 14; 17]%nat
    = Py.Ret ["Cards/AS.png"; "Cards/KD.png"] ∧
  card_files ["Your hand: -AS-KD-"; "It is jean-luc's turn."] [0; 11; 14; 17; 1; 10]%nat
    = Py.Ret ["Cards/AS.png"; "Cards/KD.png"; "Cards/.png"; "Cards/ur hand:.png"] ∧
  deliver 7 ["Your hand: -AS-KD-"; "It is jean-luc's turn."]
    = ([Send 7 "It is jean-luc's turn."], Crashed Py.FileNotFoundError).
Proof. repeat split; by vm_compute. Qed.

(** C6 (the code does not do what the claim says).  A hyphen in a line
    that is no hand line counts as the delimiter.  In the reply whose
    first line names the player jean-luc and whose second line holds the
    tokens AS and KD, the first line is the one removed: the hand line is
    sent as text, the card files are cut from the name, and opening the
    first of them raises, so no image is sent.  With the name alice in
    the first line the hand line is removed and the image follows the
    text.  The reply of [help] holds the key [all-in]: through
    [on_message] its only line is removed, an empty text is sent and the
    composition of no image raises [ValueError]. *)
Lemma deliver_hyphen_outside_hand_line :
  find_card ["jean-luc calls."; "Cards: -AS-KD-"] = Some [0; 4; 1; 7; 10; 13]%nat ∧
  card_files ["jean-luc calls."; "Cards: -AS-KD-"] [0; 4; 1; 7; 10; 13]%nat
    = Py.Ret ["Cards/.png"; "Cards/an-lu.png"; "Cards/ c.png"; "Cards/ll.png"] ∧
  deliver 7 ["jean-luc calls."; "Cards: -AS-KD-"]
    = ([Send 7 "Cards: -AS-KD-"], Crashed Py.FileNotFoundError) ∧
  deliver 7 ["alice calls."; "Cards: -AS-KD-"]
    = ([Send 7 "alice calls.";
        SendFile 7
          {| mode := "RGB"; canvas_size := (200, 150);
             pasted :=
               [({| Image.file := "Cards/AS.png"; Image.size := (100, 150) |}, (0, 0));
                ({| Image.file := "Cards/KD.png"; Image.size := (100, 150) |}, (100, 0))] |}
          "new_im.png"], Done) ∧
  (∃ text,
     show_help (Game.init (says alice "!help")) (says alice "!help")
       = (Game.init (says alice "!help"), Py.Ret [text]) ∧
     contains "-" text = true ∧
     deliver 7 [text] = ([Send 7 EmptyString], Crashed Py.ValueError)) ∧
  (∃ w',
     on_message {| games := ∅; accounts := [] |} (says alice "!help")
       = (w', [Send 7 EmptyString], Crashed Py.ValueError)).
Proof.
  split; [by vm_compute|]. split; [by vm_compute|]. split; [by vm_compute|].
  split; [by vm_compute|]. split.
  - eexists. split; [by vm_compute|]. split; by vm_compute.
  - eexists. by vm_compute.
Qed.

(** C3 on a table: alice has bet 10 of a pot of 30, of which 20 were
    carried over. *)
Lemma pot_conservation_witness :
  Game.pot (table_of BETTING [seat alice 100 10; seat bob 60 0] 30 10)
    = bets (table_of BETTING [seat alice 100 10; seat bob 60 0] 30 10) + 20 ∧
  Forall (fun g' => Game.pot g' = bets g' + 20)
    (observe (table_of BETTING [seat alice 100 10; seat bob 60 0] 30 10)
       [RaiseBet 20; Call; AllIn]).
Proof.
  split; [reflexivity|]. apply pot_conservation. reflexivity.
Defined.

(** C5 on the assets of the ace of spades and the king of diamonds. *)
Lemma compose_width_height_layout_witness :
  ∃ new_im,
    compose [{| Image.file := "Cards/AS.png"; Image.size := (100, 150) |};
             {| Image.file := "Cards/KD.png"; Image.size := (100, 150) |}]
      = Py.Ret new_im ∧
    canvas_size new_im = (200, 150) ∧
    pasted new_im =
      [({| Image.file := "Cards/AS.png"; Image.size := (100, 150) |}, (0, 0));
       ({| Image.file := "Cards/KD.png"; Image.size := (100, 150) |}, (100, 0))].
Proof.
  destruct (compose_width_height_layout ["Cards/AS.png"; "Cards/KD.png"]
              [{| Image.file := "Cards/AS.png"; Image.size := (100, 150) |};
               {| Image.file := "Cards/KD.png"; Image.size := (100, 150) |}])
    as (new_im & E & _); [by vm_compute|done|].
  exists new_im. split; [exact E|]. vm_compute in E. injection E as <-. done.
Defined.

(** The delivery step on two replies: one without the delimiter, one
    whose second line holds the tokens AS and KD. *)
Lemma deliver_text_and_image_witness :
  deliver 7 ["alice calls."; "It is bob's turn."]
    = ([Send 7 (Py.join Py.newline ["alice calls."; "It is bob's turn."])], Done) ∧
  ∃ new_im,
    compose [{| Image.file := "Cards/AS.png"; Image.size := (100, 150) |};
             {| Image.file := "Cards/KD.png"; Image.size := (100, 150) |}]
      = Py.Ret new_im ∧
    deliver 7 ["The flop:"; "Cards: -AS-KD-"; "It is bob's turn."]
      = ([Send 7 (Py.join Py.newline ["The flop:"; "It is bob's turn."]);
          SendFile 7 new_im "new_im.png"], Done).
Proof.
  split.
  - apply (proj1 (deliver_text_and_image 7 ["alice calls."; "It is bob's turn."])).
    by repeat constructor.
  - destruct (proj2 (deliver_text_and_image 7
                       ["The flop:"; "Cards: -AS-KD-"; "It is bob's turn."])
                ["The flop:"] "Cards: -AS-KD-" ["It is bob's turn."])
      as (cards & Hcards & E); [done|by repeat constructor|done|].
    vm_compute in Hcards. injection Hcards as <-.
    eexists. split; [by vm_compute|]. exact E.
Defined.

(** C7 on a game that alice deals: the deal of bob is refused. *)
Lemma deal_hand_guard_witness :
  deal_hand (table_of NO_HANDS [seat alice 100 0; seat bob 100 0] 0 0) (says bob "!deal")
    = (table_of NO_HANDS [seat alice 100 0; seat bob 100 0] 0 0,
       Py.Ret ["You aren't the dealer, bob."; "Please wait for alice to !deal."]) ∧
  deal_hand (table_of WAITING [seat alice 100 0; seat bob 100 0] 0 0) (says alice "!deal")
    = (table_of WAITING [seat alice 100 0; seat bob 100 0] 0 0,
       Py.Ret ["You can't deal because the game hasn't started yet."]).
Proof.
  split.
  - destruct (deal_hand_guard (table_of NO_HANDS [seat alice 100 0; seat bob 100 0] 0 0)
                (says bob "!deal")) as [Hno_hands _].
    destruct (Hno_hands eq_refl) as [Hdealer _].
    destruct (Hdealer (seat alice 100 0) eq_refl) as [_ Hrefused].
    exact (Hrefused eq_refl).
  - destruct (deal_hand_guard (table_of WAITING [seat alice 100 0; seat bob 100 0] 0 0)
                (says alice "!deal")) as [_ Hother].
    apply Hother. discriminate.
Defined.

(** C8 on the option of the sample table: an unknown option, a value
    that is no integer and a negative value are each refused with the
    line of their own, and the value 50 is set. *)
Lemma set_option_checks_witness :
  set_option (table_of WAITING [seat alice 100 0] 0 0) (says alice "!set blind 5")
    = (table_of WAITING [seat alice 100 0] 0 0,
       Py.Ret ["'blind' is not an option. Message !options to see the list of options."]) ∧
  set_option (table_of WAITING [seat alice 100 0] 0 0) (says alice "!set buy-in ten")
    = (table_of WAITING [seat alice 100 0] 0 0,
       Py.Ret ["buy-in must be set to an integer, and 'ten' is not a valid integer."]) ∧
  set_option (table_of WAITING [seat alice 100 0] 0 0) (says alice "!set buy-in -3")
    = (table_of WAITING [seat alice 100 0] 0 0,
       Py.Ret ["Cannot set buy-in to a negative value!"]) ∧
  Game.options (set_option (table_of WAITING [seat alice 100 0] 0 0)
                  (says alice "!set buy-in 50")).1 !! "buy-in" = Some 50.
Proof.
  split; [|split; [|split]].
  - apply (proj1 (set_option_checks (table_of WAITING [seat alice 100 0] 0 0)
                    (says alice "!set blind 5") "!set" "blind" "5" [] eq_refl)).
    cbn. by intros Hin%list_elem_of_singleton.
  - apply (proj1 (proj2 (set_option_checks (table_of WAITING [seat alice 100 0] 0 0)
                    (says alice "!set buy-in ten") "!set" "buy-in" "ten" [] eq_refl))).
    + cbn. left.
    + by vm_compute.
  - apply (proj1 (proj2 (proj2 (set_option_checks (table_of WAITING [seat alice 100 0] 0 0)
                    (says alice "!set buy-in -3") "!set" "buy-in" "-3" [] eq_refl))) (-3)).
    + cbn. left.
    + by vm_compute.
    + lia.
  - apply (proj2 (proj2 (proj2 (proj2
             (set_option_checks (table_of WAITING [seat alice 100 0] 0 0)
                (says alice "!set buy-in 50") "!set" "buy-in" "50" [] eq_refl)))) 50).
    + cbn. left.
    + by vm_compute.
    + lia.
Defined.

(** C9 on an empty store: alice registers, then registers again under
    another display name. *)
Lemma register_idempotent_witness :
  register [] (says alice "!reg")
    = ([new_account "1"], Py.Ret ["Thank you for registering!"]) ∧
  register (register [] (says alice "!reg")).1
      (says {| User.id := 1; User.name := "alice-in-chains" |} "!reg")
    = ((register [] (says alice "!reg")).1, Py.Ret ["You already have registered!"]).
Proof.
  destruct (register_idempotent [] (says alice "!reg")
              (says {| User.id := 1; User.name := "alice-in-chains" |} "!reg") eq_refl)
    as (Hfirst & Hsecond & _).
  split; [|exact Hsecond]. by destruct (Hfirst eq_refl) as [-> _].
Defined.

Lemma help_dispatched : dispatched (says alice "!help") "help" (on_game show_help).
Proof.
  split; [by vm_compute|]. split; [discriminate|].
  exists "!help", []. by repeat split.
Qed.

Lemma call_dispatched : dispatched (says bob "!call") "call" (on_game call_bet).
Proof.
  split; [by vm_compute|]. split; [discriminate|].
  exists "!call", []. by repeat split.
Qed.

(** C10 on a bot that has no game yet: for [help] and for [call] the
    map that [setdefault] returns holds the game the constructor makes
    for the channel 7, and after the command the channel has that
    game. *)
Lemma on_message_creates_game_witness :
  (setdefault ∅ 7 (Game.init (says alice "!help"))
     = (<[7 := Game.init (says alice "!help")]> ∅, Game.init (says alice "!help")) ∧
   ∃ w' events st,
     on_message {| games := ∅; accounts := [] |} (says alice "!help") = (w', events, st) ∧
     games w' !! 7 = Some (Game.init (says alice "!help"))) ∧
  (setdefault ∅ 7 (Game.init (says bob "!call"))
     = (<[7 := Game.init (says bob "!call")]> ∅, Game.init (says bob "!call")) ∧
   ∃ w' events st,
     on_message {| games := ∅; accounts := [] |} (says bob "!call") = (w', events, st) ∧
     games w' !! 7 = Some (Game.init (says bob "!call"))).
Proof.
  split.
  - destruct (proj1 (on_message_creates_game {| games := ∅; accounts := [] |}
                       (says alice "!help") "help" (on_game show_help) help_dispatched))
      as (S & _ & w' & events & st & E & _ & L & _); [by vm_compute|].
    split; [exact S|]. by exists w', events, st.
  - destruct (proj1 (on_message_creates_game {| games := ∅; accounts := [] |}
                       (says bob "!call") "call" (on_game call_bet) call_dispatched))
      as (S & _ & w' & events & st & E & _ & L & _); [by vm_compute|].
    split; [exact S|]. by exists w', events, st.
Defined.

End Examples.

(** * Further properties of [bot.py] *)

(** ** Texts *)

Lemma append_cons (x : ascii) (a b : string) : String x a +:+ b = String x (a +:+ b).
Proof. done. Qed.

Lemma append_nil (b : string) : EmptyString +:+ b = b.
Proof. done. Qed.

Lemma append_assoc (a b c : string) : (a +:+ b) +:+ c = a +:+ b +:+ c.
Proof.
  induction a as [|x a IH]; [done|]. rewrite !append_cons. by f_equal.
Qed.

Lemma len_append (a b : string) : Py.len (a +:+ b) = (Py.len a + Py.len b)%nat.
Proof.
  unfold Py.len. induction a as [|x a IH]; [done|].
  rewrite append_cons. simpl. by f_equal.
Qed.

Lemma dashes_from_app (a b : string) (pos : nat) :
  dashes_from (a +:+ b) pos = dashes_from a pos ++ dashes_from b (pos + Py.len a).
Proof.
  unfold Py.len. revert pos. induction a as [|x a IH]; intros pos.
  - rewrite append_nil. simpl. by rewrite Nat.add_0_r.
  - rewrite append_cons. simpl. rewrite IH, <- app_assoc.
    by replace (S pos + String.length a)%nat
      with (pos + S (String.length a))%nat by lia.
Qed.

Lemma dashes_from_get (s : string) (pos p : nat) :
  p ∈ dashes_from s pos ↔ (pos ≤ p)%nat ∧ String.get (p - pos) s = Some "-"%char.
Proof.
  revert pos. induction s as [|d s IH]; intros pos; simpl.
  - split; [by intros ?%elem_of_nil|]. by intros [_ ?].
  - rewrite elem_of_app, IH. destruct (Ascii.eqb_spec d "-") as [->|Hd].
    + rewrite list_elem_of_singleton. split.
      * intros [->|[Hle Hget]].
        -- split; [lia|]. by rewrite Nat.sub_diag.
        -- split; [lia|]. destruct (p - pos)%nat as [|k] eqn:E; [lia|].
           by replace k with (p - S pos)%nat by lia.
      * intros [Hle Hget]. destruct (p - pos)%nat as [|k] eqn:E.
        -- left. lia.
        -- right. split; [lia|]. by replace (p - S pos)%nat with k by lia.
    + split.
      * intros [?%elem_of_nil|[Hle Hget]]; [done|].
        split; [lia|]. destruct (p - pos)%nat as [|k] eqn:E; [lia|].
        by replace k with (p - S pos)%nat by lia.
      * intros [Hle Hget]. right. destruct (p - pos)%nat as [|k] eqn:E.
        -- injection Hget as ->. done.
        -- split; [lia|]. by replace (p - S pos)%nat with k by lia.
Qed.

Lemma substring_head (t r : string) : substring 0 (String.length t) (t +:+ r) = t.
Proof.
  induction t as [|y t IH].
  - rewrite append_nil. by destruct r.
  - rewrite append_cons. simpl. by rewrite IH.
Qed.

Lemma slice_middle (a t r : string) :
  Py.slice (a +:+ t +:+ r) (Py.len a) (Py.len a + Py.len t) = t.
Proof.
  unfold Py.slice, Py.len.
  replace (String.length a + String.length t - String.length a)%nat
    with (String.length t) by lia.
  induction a as [|x a IH].
  - rewrite append_nil. apply substring_head.
  - rewrite append_cons. exact IH.
Qed.

(** ** More on the delimiter scan *)

Lemma locations_none_inv (messages : list string) (index : nat) :
  locations_from index messages = [] →
  Forall (fun line => contains "-" line = false) messages.
Proof.
  revert index. induction messages as [|line rest IH]; intros index E; [constructor|].
  cbn [locations_from] in E. destruct (dashes line) as [|p ps] eqn:D; [|done].
  constructor; [by apply (contains_dashes line 0)|by apply (IH (S index))].
Qed.

(** X1.  [find_card] returns on every list of lines.  What it returns
    lists, for each line that holds the delimiter and in the order of the
    lines, the index of the line and then the positions of the line at
    which the character is the delimiter; it is empty exactly when no line
    holds the delimiter. *)
Theorem find_card_lists_delimiters (messages : list string) :
  find_card messages = Some (locations messages) ∧
  (locations messages = [] ↔ Forall (fun line => contains "-" line = false) messages) ∧
  (∀ line p, p ∈ dashes line ↔ String.get p line = Some "-"%char).
Proof.
  split; [apply find_card_spec|]. split.
  - split; [apply locations_none_inv|apply locations_none].
  - intros line p. unfold dashes. rewrite dashes_from_get, Nat.sub_0_r.
    split; [by intros [_ ?]|]. intros ?. split; [lia|done].
Qed.

Lemma dashes_from_dash (s : string) (pos : nat) :
  dashes_from ("-" +:+ s) pos = pos :: dashes_from s (S pos).
Proof. done. Qed.

Lemma framed_dashes (tokens : list string) (post : string) (pos : nat) :
  Forall (fun token => contains "-" token = false) tokens →
  contains "-" post = false →
  dashes_from ("-" +:+ framed tokens +:+ post) pos = boundaries pos tokens.
Proof.
  intros Htokens Hpost. revert pos.
  induction Htokens as [|token rest Htoken _ IH]; intros pos;
    cbn [framed boundaries]; rewrite dashes_from_dash; f_equal.
  - rewrite append_nil. by apply (contains_dashes post (S pos)).
  - rewrite !append_assoc, dashes_from_app.
    apply (contains_dashes token (S pos)) in Htoken as ->. cbn [app].
    rewrite IH. f_equal. lia.
Qed.

Lemma between_step (line : string) (a b : nat) (rest : list nat) :
  between line (a :: b :: rest)
    = ("Cards/" +:+ Py.slice line (a + 1) b +:+ ".png") :: between line (b :: rest).
Proof. done. Qed.

Lemma boundaries_step (pos : nat) (token : string) (rest : list string) :
  ∃ qs, boundaries pos (token :: rest) = pos :: (pos + 1 + Py.len token)%nat :: qs ∧
        boundaries (pos + 1 + Py.len token) rest = (pos + 1 + Py.len token)%nat :: qs.
Proof. destruct rest; by eexists. Qed.

Lemma framed_between (tokens : list string) (pre post : string) :
  between (pre +:+ "-" +:+ framed tokens +:+ post) (boundaries (Py.len pre) tokens)
    = (fun token => "Cards/" +:+ token +:+ ".png") <$> tokens.
Proof.
  revert pre. induction tokens as [|token rest IH]; intros pre; [done|].
  destruct (boundaries_step (Py.len pre) token rest) as (qs & -> & Hqs).
  rewrite between_step, <- Hqs, fmap_cons. cbn [framed].
  assert (pre +:+ "-" +:+ (token +:+ "-" +:+ framed rest) +:+ post
          = (pre +:+ "-" +:+ token) +:+ "-" +:+ framed rest +:+ post) as Hline
    by (by rewrite !append_assoc).
  assert (Py.len (pre +:+ "-" +:+ token) = (Py.len pre + 1 + Py.len token)%nat) as Hlen.
  { rewrite !len_append. unfold Py.len. simpl. lia. }
  f_equal.
  - f_equal. f_equal.
    replace (Py.len pre + 1)%nat with (Py.len (pre +:+ "-"))
      by (rewrite len_append; done).
    replace (Py.len pre + 1 + Py.len token)%nat
      with (Py.len (pre +:+ "-") + Py.len token)%nat by (rewrite len_append; done).
    rewrite <- (slice_middle (pre +:+ "-") token ("-" +:+ framed rest +:+ post)) at 3.
    f_equal. by rewrite !append_assoc.
  - rewrite Hline, <- Hlen. apply IH.
Qed.

Section MoreDelivery.
Context `{Env}.

(** X2.  Round trip of the hand line.  When one line of the reply is a
    text, the delimiter, and card tokens each followed by the delimiter,
    then any text, and neither the tokens nor any other part of the reply
    hold the delimiter, [find_card] returns the index of that line with
    the positions of its delimiters, and the card files cut with them are
    the files of the tokens, in order. *)
Theorem card_files_round_trip (before after : list string) (pre post : string)
    (tokens : list string) :
  Forall (fun line => contains "-" line = false) before →
  Forall (fun line => contains "-" line = false) after →
  contains "-" pre = false →
  contains "-" post = false →
  Forall (fun token => contains "-" token = false) tokens →
  find_card (before ++ (pre +:+ "-" +:+ framed tokens +:+ post) :: after)
    = Some (length before :: boundaries (Py.len pre) tokens) ∧
  card_files (before ++ (pre +:+ "-" +:+ framed tokens +:+ post) :: after)
    (length before :: boundaries (Py.len pre) tokens)
    = Py.Ret ((fun token => "Cards/" +:+ token +:+ ".png") <$> tokens).
Proof.
  intros Hbefore Hafter Hpre Hpost Htokens.
  set (line := pre +:+ "-" +:+ framed tokens +:+ post).
  assert (dashes line = boundaries (Py.len pre) tokens) as Hdashes.
  { unfold dashes, line. rewrite dashes_from_app.
    apply (contains_dashes pre 0) in Hpre as ->. cbn [app Nat.add].
    by apply framed_dashes. }
  split.
  - rewrite find_card_spec. unfold locations.
    assert (contains "-" line = true) as Hline.
    { destruct (contains "-" line) eqn:E; [done|].
      apply (contains_dashes line 0) in E. fold (dashes line) in E.
      rewrite Hdashes in E. by destruct tokens. }
    destruct (locations_first before after line 0 Hbefore Hline) as (p & ps & E & ->).
    rewrite <- E, Hdashes, (locations_none after) by done.
    by rewrite app_nil_r.
  - rewrite (card_files_between _ _ _ line) by apply list_lookup_middle, eq_refl.
    apply f_equal, framed_between.
Qed.

Lemma first_delimiter_line (messages : list string) :
  Forall (fun line => contains "-" line = false) messages ∨
  ∃ before line after,
    messages = before ++ line :: after ∧
    Forall (fun l => contains "-" l = false) before ∧
    contains "-" line = true.
Proof.
  induction messages as [|line rest IH]; [by left; constructor|].
  destruct (contains "-" line) eqn:E.
  - right. by exists [], line, rest.
  - destruct IH as [IH|(before & l & after & -> & Hb & Hl)].
    + left. by constructor.
    + right. exists (line :: before), l, after. split; [done|]. split; [|done].
      by constructor.
Qed.

(** The scan and the delivery end within the bound of the loop. *)
Lemma deliver_finishes (ch : Z) (messages : list string) :
  (deliver ch messages).2 ≠ Unfinished.
Proof.
  destruct (first_delimiter_line messages)
    as [Hnone|(before & line & after & -> & Hb & Hl)].
  - by rewrite deliver_plain.
  - destruct (deliver_cards ch before after line Hb Hl) as (cards & _ & ->).
    by destruct (Py.bind (for_each open_image cards) (λ images, compose images)).
Qed.

(** X3.  Whatever the lines of a reply are, the bot ends the scan of the
    delimiters, sends exactly one text first, and after it nothing or one
    image named [new_im.png]; an image is sent only when the run ends
    well, and never when no line holds the delimiter. *)
Theorem deliver_shape (ch : Z) (messages : list string) :
  ∃ text rest st,
    deliver ch messages = (Send ch text :: rest, st) ∧
    st ≠ Unfinished ∧
    (rest = [] ∨ ∃ new_im, rest = [SendFile ch new_im "new_im.png"] ∧ st = Done) ∧
    (Forall (fun line => contains "-" line = false) messages →
     rest = [] ∧ st = Done ∧ text = Py.join Py.newline messages).
Proof.
  destruct (first_delimiter_line messages)
    as [Hnone|(before & line & after & -> & Hb & Hl)].
  - rewrite deliver_plain by done. eexists _, _, _. split; [done|].
    split; [done|]. split; [by left|done].
  - destruct (deliver_cards ch before after line Hb Hl) as (cards & _ & ->).
    destruct (Py.bind (for_each open_image cards) (λ images, compose images))
      as [new_im|e]; eexists _, _, _; (split; [done|]); (split; [done|]).
    + split; [right; by eexists|]. intros Hall.
      apply Forall_app in Hall as [_ Hall]. apply Forall_cons in Hall as [Hline _].
      congruence.
    + split; [by left|]. intros Hall.
      apply Forall_app in Hall as [_ Hall]. apply Forall_cons in Hall as [Hline _].
      congruence.
Qed.

(** With a single delimiter there is no card file to cut. *)
Lemma deliver_no_card (ch : Z) (before after : list string)
    (line : string) (p : nat) :
  Forall (fun l => contains "-" l = false) before →
  dashes line = [p] →
  Forall (fun l => contains "-" l = false) after →
  deliver ch (before ++ line :: after)
    = ([Send ch (Py.join Py.newline (before ++ after))], Crashed Py.ValueError).
Proof.
  intros Hb Hp Ha.
  assert (contains "-" line = true) as Hl.
  { destruct (contains "-" line) eqn:E; [done|].
    apply (contains_dashes line 0) in E. fold (dashes line) in E. congruence. }
  destruct (deliver_cards ch before after line Hb Hl) as (cards & Hcards & ->).
  unfold locations in Hcards.
  destruct (locations_first before after line 0 Hb Hl) as (q & qs & E & Hloc).
  rewrite Hloc, <- E, Hp, (locations_none after) in Hcards by done.
  rewrite (card_files_between _ _ _ line) in Hcards by apply list_lookup_middle, eq_refl.
  injection Hcards as <-. done.
Qed.

(** X4.  A reply whose first line with the delimiter holds it just once,
    and whose later lines do not hold it, loses that line: the other
    lines are sent, no card file is cut, and the composition of no image
    raises [ValueError]; no image is sent. *)
Theorem deliver_single_delimiter (ch : Z) (before after : list string)
    (line : string) (p : nat) :
  Forall (fun l => contains "-" l = false) before →
  dashes line = [p] →
  Forall (fun l => contains "-" l = false) after →
  deliver ch (before ++ line :: after)
    = ([Send ch (Py.join Py.newline (before ++ after))], Crashed Py.ValueError).
Proof. apply deliver_no_card. Qed.

Lemma for_each_open_missing (cards : list string) (card : string) :
  card ∈ cards → Image_open card = None →
  for_each open_image cards = Py.Raised Py.FileNotFoundError.
Proof.
  intros Hin Hnone. induction cards as [|x cards IH]; [by apply elem_of_nil in Hin|].
  cbn [for_each]. unfold open_image at 1.
  destruct (Image_open x) as [im|] eqn:Hx; [|done]. cbn [Py.bind].
  apply elem_of_cons in Hin as [->|Hin]; [congruence|].
  by rewrite IH.
Qed.

(** X5.  When one of the card files cut from the reply has no asset, the
    other lines are still sent as text, then the run raises
    [FileNotFoundError] and no image is sent. *)
Theorem deliver_missing_asset (ch : Z) (before after : list string) (line : string)
    (cards : list string) (card : string) :
  Forall (fun l => contains "-" l = false) before →
  contains "-" line = true →
  card_files (before ++ line :: after) (locations (before ++ line :: after))
    = Py.Ret cards →
  card ∈ cards →
  Image_open card = None →
  deliver ch (before ++ line :: after)
    = ([Send ch (Py.join Py.newline (before ++ after))], Crashed Py.FileNotFoundError).
Proof.
  intros Hb Hl Hcards Hin Hnone.
  destruct (deliver_cards ch before after line Hb Hl) as (cards' & Hcards' & ->).
  rewrite Hcards in Hcards'. injection Hcards' as <-.
  by rewrite (for_each_open_missing cards card).
Qed.

End MoreDelivery.

(** ** More on the handlers *)

Section MoreHandlers.
Context `{Env} `{Game.API}.

Import Message.

(** For the current player, a [raise] without an amount and a
    [raise] whose amount [int] refuses are answered with one line each,
    and the game is returned as it was. *)
Theorem raise_bet_malformed (g : Game.t) (m : Message.t) (current : Player.t) :
  Game.state g ≠ NO_GAME → Game.state g ≠ WAITING → Game.state g ≠ NO_HANDS →
  Game.is_player g (author m) = true →
  Game.current_player g = Py.Ret current →
  User.eqb (Player.user current) (author m) = true →
  (∀ cmd, Py.split (content m) = [cmd] →
     raise_bet g m =
       (g, Py.Ret ["Please follow " +:+ prefix +:+
                   "raise with the amount that you would " +:+
                   "like to raise it by."])) ∧
  (∀ cmd token more,
     Py.split (content m) = cmd :: token :: more → int token = None →
     raise_bet g m =
       (g, Py.Ret ["Please follow " +:+ prefix +:+ "raise with an integer. " +:+
                   "'" +:+ token +:+ "' is not an integer."])).
Proof.
  intros H1 H2 H3 Hmember Hcur Hturn. unfold raise_bet.
  rewrite Hmember, Hcur, Hturn. repeat case_decide; try done. split.
  - by intros cmd ->.
  - intros cmd token more -> Hint.
    cbn [negb length Nat.ltb Nat.leb Py.item lookup list_lookup]. by rewrite Hint.
Qed.

(** X7.  A betting command ([call], [check], [raise], [fold], [all-in])
    sent before the hands are dealt, or by a user who is not seated, or
    by a player whose turn it is not, is answered with one line, and the
    game is returned as it was. *)
Theorem betting_guards (g : Game.t) (m : Message.t) :
  Game.state g = NO_GAME ∨ Game.state g = WAITING ∨ Game.state g = NO_HANDS ∨
  Game.is_player g (author m) = false ∨
  (∃ current, Game.current_player g = Py.Ret current ∧
              User.eqb (Player.user current) (author m) = false) →
  Forall (fun handler : Game.t → Message.t → reply =>
            ∃ line, handler g m = (g, Py.Ret [line]))
    [call_bet; check; raise_bet; fold_hand; all_in].
Proof.
  intros Hguard.
  assert (∀ handler : Game.t → Message.t → reply,
            handler ∈ [call_bet; check; raise_bet; fold_hand; all_in] →
            ∃ line, handler g m = (g, Py.Ret [line])) as Hall.
  { intros handler Hin.
    repeat (apply elem_of_cons in Hin as [->|Hin]); [..|by apply elem_of_nil in Hin];
      unfold call_bet, check, raise_bet, fold_hand, all_in;
      repeat case_decide; try (by eexists);
      (destruct (Game.is_player g (author m)) eqn:Hmember; cbn [negb];
       try (by eexists));
      (destruct Hguard as [?|[?|[?|[?|(current & -> & ->)]]]]; try done);
      cbn [negb]; by eexists. }
  by apply Forall_forall.
Qed.

(** For the current player, [check] goes through to the method when
    the player's bet equals the table bet; otherwise the reply says how
    much is missing to call, and the game is returned as it was. *)
Theorem check_needs_matched_bet (g : Game.t) (m : Message.t) (current : Player.t) :
  Game.state g ≠ NO_GAME → Game.state g ≠ WAITING → Game.state g ≠ NO_HANDS →
  Game.is_player g (author m) = true →
  Game.current_player g = Py.Ret current →
  User.eqb (Player.user current) (author m) = true →
  (Player.cur_bet current = Game.cur_bet g → check g m = Game.check g) ∧
  (Player.cur_bet current ≠ Game.cur_bet g →
   check g m =
     (g, Py.Ret ["You can't check, " +:+ User.name (author m) +:+
                 " because you need to " +:+ "put in $" +:+
                 Py.str (Game.cur_bet g - Player.cur_bet current) +:+
                 " to " +:+ "call."])).
Proof.
  intros H1 H2 H3 Hmember Hcur Hturn. unfold check.
  rewrite Hmember, Hcur, Hturn. repeat case_decide; try done. cbn [negb].
  split; intros Hbet.
  - by rewrite Hbet, Z.eqb_refl.
  - by destruct (Z.eqb_spec (Player.cur_bet current) (Game.cur_bet g)).
Qed.

Lemma stop_game_state (g : Game.t) (m : Message.t) :
  Game.state (stop_game g m).1 = NO_GAME.
Proof. unfold stop_game. by case_decide. Qed.

(** X8.  [stop] leaves the game in [NO_GAME] and changes nothing else:
    the players, the pot, the table bet, the deck and the options stay
    as they were.  A second [stop] changes nothing and says that no game
    is in progress. *)
Theorem stop_game_keeps_roster (g : Game.t) (m m' : Message.t) :
  Game.state (stop_game g m).1 = NO_GAME ∧
  Game.set_state (Game.state g) (stop_game g m).1 = Game.set_state (Game.state g) g ∧
  stop_game (stop_game g m).1 m' =
    ((stop_game g m).1, Py.Ret ["There is no game in progress!"]).
Proof.
  assert ((stop_game g m).1 = Game.set_state NO_GAME g) as ->.
  { unfold stop_game. case_decide as Hstate; [done|].
    cbn [fst]. destruct g. cbn in *. by subst. }
  split; [done|]. split; [done|]. unfold stop_game. by case_decide.
Qed.

(** X9.  [newgame] on a channel without a session leaves the game in
    [WAITING], whatever the methods of the game do; on a channel with a
    session it changes nothing, and mentions joining only while the game
    is waiting.  After a [stop], [newgame] always opens a game. *)
Theorem new_game_opens_or_refuses (table : list Account) (g : Game.t)
    (m m' : Message.t) :
  (Game.state g = NO_GAME →
   Game.state (new_game table g m).1 = WAITING ∧
   (new_game table g m).2 =
     Py.Ret ["A new game has been started by " +:+ User.name (author m) +:+ "!";
             "Message " +:+ prefix +:+ "join to join the game."]) ∧
  (Game.state g ≠ NO_GAME →
   (new_game table g m).1 = g ∧
   ∃ lines, (new_game table g m).2 = Py.Ret lines ∧
            (length lines = 2%nat ↔ Game.state g = WAITING)) ∧
  Game.state (new_game table (stop_game g m).1 m').1 = WAITING.
Proof.
  split; [|split].
  - intros Hstate. unfold new_game. by case_decide.
  - intros Hstate. unfold new_game. repeat case_decide; try done.
    + split; [done|]. eexists. split; [done|]. done.
    + split; [done|]. eexists. split; [done|]. cbn. split; [lia|done].
  - pose proof (stop_game_state g m) as Hstopped.
    unfold new_game. by case_decide.
Qed.

(** X10.  [set] changes nothing of a game but its option mapping, and of
    that at most one entry: no entry is removed, and an entry that is new
    or has a new value belongs to a known option and is not negative.  So
    options that are never negative stay so. *)
Theorem set_option_touches_one_option (g : Game.t) (m : Message.t) :
  Game.set_options (Game.options g) (set_option g m).1 = g ∧
  (∀ k, is_Some (Game.options g !! k) → is_Some (Game.options (set_option g m).1 !! k)) ∧
  (∀ k v, Game.options (set_option g m).1 !! k = Some v →
     Game.options g !! k = Some v ∨ (0 ≤ v ∧ k ∈ Game.GAME_OPTIONS.*1)) ∧
  ((∀ k v, Game.options g !! k = Some v → 0 ≤ v) →
   ∀ k v, Game.options (set_option g m).1 !! k = Some v → 0 ≤ v).
Proof.
  assert ((set_option g m).1 = g ∨
          ∃ option val, option ∈ Game.GAME_OPTIONS.*1 ∧ 0 ≤ val ∧
            (set_option g m).1 =
              Game.set_options (<[option := val]> (Game.options g)) g) as Hcases.
  { unfold set_option.
    destruct (length (Py.split (content m)) =? 2)%nat; [by left|].
    destruct (length (Py.split (content m)) =? 1)%nat; [by left|].
    destruct (Py.item _ 1) as [option|]; [|by left].
    case_decide as Hknown; [by left|].
    destruct (Py.item _ 2) as [value|]; [|by left].
    destruct (int value) as [val|]; [|by left].
    destruct (Z.ltb_spec val 0); [by left|]. right. by exists option, val. }
  destruct Hcases as [->|(option & val & Hknown & Hval & ->)].
  - split; [by destruct g|]. split; [done|]. split; [by left|]. done.
  - cbn [Game.options Game.set_options]. split; [by destruct g|]. split; [|split].
    + intros k Hk. destruct (decide (option = k)) as [->|Hne].
      * rewrite lookup_insert_eq. by eexists.
      * by rewrite lookup_insert_ne.
    + intros k v. destruct (decide (option = k)) as [->|Hne].
      * rewrite lookup_insert_eq. intros [= <-]. by right.
      * rewrite lookup_insert_ne by done. by left.
    + intros Hall k v. destruct (decide (option = k)) as [->|Hne].
      * rewrite lookup_insert_eq. by intros [= <-].
      * rewrite lookup_insert_ne by done. apply Hall.
Qed.

End MoreHandlers.

Section MoreOptions.
Context `{Env} `{Game.API}.

Lemma option_lines_present (g : Game.t) (lo lv : nat) (entries : list (string * string)) :
  Forall (fun entry => is_Some (Game.options g !! entry.1)) entries →
  ∃ lines, option_lines g lo lv entries = Py.Ret lines.
Proof.
  induction 1 as [|[option description] entries [val Hval] _ [lines IH]]; cbn [option_lines].
  - by eexists.
  - unfold option_line. cbn [fst] in Hval. rewrite Hval. cbn [Py.bind].
    rewrite IH. cbn [Py.bind]. by eexists.
Qed.

Lemma option_lines_missing (g : Game.t) (lo lv : nat) (entries : list (string * string))
    (entry : string * string) :
  entry ∈ entries → Game.options g !! entry.1 = None →
  option_lines g lo lv entries = Py.Raised Py.KeyError.
Proof.
  intros Hin Hnone. induction entries as [|[option description] entries IH];
    [by apply elem_of_nil in Hin|].
  cbn [option_lines]. unfold option_line at 1.
  destruct (Game.options g !! option) as [val|] eqn:Hval; [|done]. cbn [Py.bind].
  apply elem_of_cons in Hin as [->|Hin]; [cbn [fst] in Hnone; congruence|].
  by rewrite IH.
Qed.

(** X11.  [options] never changes the game.  It raises [ValueError] when
    the game has no option at all, raises [KeyError] when the game lacks
    the value of a known option, and otherwise answers with one text. *)
Theorem show_options_outcome (g : Game.t) (m : Message.t) :
  (show_options g m).1 = g ∧
  (Game.options g = ∅ → (show_options g m).2 = Py.Raised Py.ValueError) ∧
  (Game.options g ≠ ∅ →
   (∃ option, option ∈ Game.GAME_OPTIONS.*1 ∧ Game.options g !! option = None) →
   (show_options g m).2 = Py.Raised Py.KeyError) ∧
  (Game.options g ≠ ∅ →
   (∀ option, option ∈ Game.GAME_OPTIONS.*1 → is_Some (Game.options g !! option)) →
   ∃ text, (show_options g m).2 = Py.Ret [text]).
Proof.
  split; [done|]. unfold show_options. cbn [snd]. split; [|split].
  - intros ->. by rewrite map_to_list_empty.
  - intros Hne (option & Hin & Hnone).
    destruct (map_to_list (Game.options g)) as [|kv kvs] eqn:E;
      [by apply map_to_list_empty_iff in E|].
    rewrite !fmap_cons. cbn [Py.max_nat Py.bind].
    apply list_elem_of_fmap in Hin as (entry & -> & Hin).
    by rewrite (option_lines_missing g _ _ _ entry).
  - intros Hne Hall.
    destruct (map_to_list (Game.options g)) as [|kv kvs] eqn:E;
      [by apply map_to_list_empty_iff in E|].
    rewrite !fmap_cons. cbn [Py.max_nat Py.bind].
    edestruct (option_lines_present g) as [lines ->].
    + apply Forall_forall. intros entry Hin. apply Hall.
      apply list_elem_of_fmap. by exists entry.
    + cbn [Py.bind]. by eexists.
Qed.

End MoreOptions.

(** ** The account store *)

Section MoreStore.
Context `{Env}.

Import Message.

Lemma select_uid_None (table : list Account) (u : string) :
  select_uid table u = None ↔ u ∉ uid <$> table.
Proof.
  unfold select_uid. induction table as [|r table IH]; simpl.
  - split; [intros _ ?%elem_of_nil; done|done].
  - rewrite not_elem_of_cons. destruct (String.eqb_spec (uid r) u) as [->|Hne].
    + split; [done|]. by intros [? _].
    + rewrite IH. split; [by intros ?; split|by intros [_ ?]].
Qed.

Lemma select_uid_Some (table : list Account) (u : string) (r : Account) :
  select_uid table u = Some r → uid r = u ∧ r ∈ table.
Proof.
  unfold select_uid. induction table as [|r' table IH]; simpl; [done|].
  destruct (String.eqb_spec (uid r') u) as [Heq|Hne].
  - intros [= <-]. split; [done|left].
  - intros E. destruct (IH E). split; [done|by right].
Qed.

(** X12.  A registration never removes or changes a row of the store:
    the store afterwards starts with the store before, followed by
    nothing or by the one new row of the author.  If no identity has two
    rows before, none has two rows afterwards. *)
Theorem register_keeps_store (table : list Account) (m : Message.t) :
  ((register table m).1 = table ∨
   (register table m).1 = table ++ [new_account (Py.str (User.id (author m)))]) ∧
  (NoDup (uid <$> table) → NoDup (uid <$> (register table m).1)).
Proof.
  unfold register.
  destruct (select_uid table (Py.str (User.id (author m)))) as [r|] eqn:E; cbn [fst].
  - split; [by left|done].
  - split; [by right|]. intros Hnodup. rewrite fmap_app. apply NoDup_app.
    split; [done|]. split; [|apply NoDup_singleton].
    intros u Hu [->|[]%elem_of_nil]%elem_of_cons.
    by apply select_uid_None in E.
Qed.

(** X13.  [balance] never writes to the store.  A user without an account
    is told so; a user who registers and then asks gets the chips of the
    account: the default of the column when the registration made the
    account, and the chips of the existing account otherwise. *)
Theorem balance_after_register (table : list Account) (m m' : Message.t) :
  User.id (author m') = User.id (author m) →
  (balance table m).1 = table ∧
  (select_uid table (Py.str (User.id (author m))) = None →
   (balance table m).2 = Py.Ret ["You have not registered yet!"] ∧
   (balance (register table m).1 m').2 =
     Py.Ret [User.name (author m') +:+ " has $" +:+ Py.str default_chips +:+ "."]) ∧
  (∀ r, select_uid table (Py.str (User.id (author m))) = Some r →
   (balance (register table m).1 m').2 =
     Py.Ret [User.name (author m') +:+ " has $" +:+ Py.str (chips r) +:+ "."]).
Proof.
  intros Hid. split; [|split].
  - unfold balance. by destruct (select_uid _ _).
  - intros E. split; [unfold balance; by rewrite E|].
    unfold balance, register. rewrite Hid, E. cbn [fst].
    rewrite select_uid_app, E. unfold select_uid. simpl.
    by rewrite String.eqb_refl.
  - intros r E. unfold balance, register. rewrite Hid, E. cbn [fst]. by rewrite E.
Qed.

End MoreStore.

(** ** More on the dispatcher *)

Lemma split_go_nonempty (s tok token : string) :
  token ∈ Py.split_go s tok → token ≠ EmptyString.
Proof.
  revert tok. induction s as [|c s IH]; intros tok; cbn [Py.split_go].
  - case_decide; [by intros ?%elem_of_nil|].
    by intros ->%list_elem_of_singleton.
  - destruct (Py.isspace c).
    + case_decide; [apply IH|]. intros [->|?]%elem_of_cons; [done|by eapply IH].
    + apply IH.
Qed.

(** The first character of a token of [split] is there to be read. *)
Lemma first_char_token (s token : string) (rest : list string) :
  Py.split s = token :: rest →
  ∃ c, Py.first_char token = Py.Ret (String c EmptyString).
Proof.
  intros E. assert (token ≠ EmptyString) as Hne.
  { apply (split_go_nonempty s EmptyString). unfold Py.split in E. rewrite E. left. }
  destruct token as [|c token]; [done|]. by exists c.
Qed.

Section MoreDispatcher.
Context `{Env} `{Game.API}.

Import Message.

(** X14.  A message of the bot itself, a message of blanks only, a
    message in a channel whose type is the text [dm], and a message whose
    first token does not start with the prefix leave the games and the
    store as they are, and nothing is sent. *)
Theorem on_message_ignores (w : World) (m : Message.t) :
  User.eqb (author m) client_user = true ∨
  Py.split (content m) = [] ∨
  Channel.type (channel m) = "dm" ∨
  (∃ token rest, Py.split (content m) = token :: rest ∧
                 Py.first_char token ≠ Py.Ret prefix) →
  on_message w m = (w, [], Done).
Proof.
  intros Hcases. unfold on_message.
  destruct (User.eqb (author m) client_user); [done|].
  destruct (Py.split (content m)) as [|token rest] eqn:Htokens; [done|].
  cbn [length Nat.eqb]. case_decide; [done|].
  destruct Hcases as [?|[?|[?|(token' & rest' & [= <- <-] & Hfirst)]]]; try done.
  destruct (first_char_token _ _ _ Htokens) as [c Hc].
  cbn [Py.item lookup list_lookup Py.bind]. rewrite Hc in *. cbn [Py.bind].
  case_decide; [congruence|done].
Qed.

(** X15.  A prefixed token that is no key of [commands] gets one reply
    that quotes the whole message and points to [help]; no game is made
    for the channel, and the games and the store stay as they are. *)
Theorem on_message_unknown_command (w : World) (m : Message.t)
    (token : string) (rest : list string) :
  User.eqb (author m) client_user = false →
  Channel.type (channel m) ≠ "dm" →
  Py.split (content m) = token :: rest →
  Py.first_char token = Py.Ret prefix →
  command_action (Py.removeprefix prefix token) = None →
  on_message w m =
    (w,
     [Send (Channel.id (channel m))
        (content m +:+ " is not a valid command. " +:+
         "Message " +:+ prefix +:+ "help to see the list of commands.")],
     Done).
Proof.
  intros Hbot Hdm Htokens Hfirst Hnone. unfold on_message.
  rewrite Hbot, Htokens. cbn [length Nat.eqb Py.item lookup list_lookup Py.bind].
  rewrite Hfirst. cbn [Py.bind]. repeat case_decide; try done. by rewrite Hnone.
Qed.

Lemma command_action_listed (command : string) (act : action) :
  command_action command = Some act → act ∈ commands.*2.
Proof.
  unfold command_action. destruct (List.find _ commands) as [entry|] eqn:E; [|done].
  intros [= <-]. apply find_some in E as [Hin _].
  apply list_elem_of_fmap. exists entry. split; [done|]. by apply list_elem_of_In.
Qed.

(** No action of [commands] does more to the store than append the row
    of the author. *)
Lemma actions_keep_store (act : action) (table : list Account) (g : Game.t)
    (m : Message.t) :
  act ∈ commands.*2 →
  (act table g m).1.1 = table ∨
  (act table g m).1.1 = table ++ [new_account (Py.str (User.id (author m)))].
Proof.
  intros Hin. unfold commands in Hin. rewrite !fmap_cons in Hin. cbn [snd] in Hin.
  repeat (apply elem_of_cons in Hin as [->|Hin]); [..|by apply elem_of_nil in Hin];
    unfold on_game, on_game_reading, on_store;
    try (match goal with |- context [let (_, _) := ?x in _] => by destruct x; left end).
  - unfold balance. destruct (select_uid _ _); by left.
  - unfold register. destruct (select_uid _ _); [by left|by right].
Qed.

(** X16.  Whatever the message, [on_message] leaves the games of all other
    channels as they are, never removes or changes a row of the store and
    adds at most the row of the author, and ends its loops. *)
Theorem on_message_frame (w : World) (m : Message.t) :
  (∀ ch, ch ≠ Channel.id (channel m) →
     games (on_message w m).1.1 !! ch = games w !! ch) ∧
  (accounts (on_message w m).1.1 = accounts w ∨
   accounts (on_message w m).1.1 =
     accounts w ++ [new_account (Py.str (User.id (author m)))]) ∧
  (on_message w m).2 ≠ Unfinished.
Proof.
  unfold on_message.
  destruct (User.eqb (author m) client_user); [by split; [|split; [left|]]|].
  destruct (length (Py.split (content m)) =? 0)%nat; [by split; [|split; [left|]]|].
  case_decide; [by split; [|split; [left|]]|].
  destruct (Py.bind _ _) as [[command c]|e]; [|by split; [|split; [left|]]].
  case_decide; [|by split; [|split; [left|]]].
  destruct (command_action _) as [act|] eqn:Hact; [|by split; [|split; [left|]]].
  apply command_action_listed in Hact.
  pose proof (actions_keep_store act (accounts w)
                (setdefault (games w) (Channel.id (channel m)) (Game.init m)).2 m Hact)
    as Hstore.
  assert (∀ ch, ch ≠ Channel.id (channel m) →
            (setdefault (games w) (Channel.id (channel m)) (Game.init m)).1 !! ch
            = games w !! ch) as Hgames.
  { intros ch Hne. unfold setdefault.
    destruct (games w !! Channel.id (channel m)); [done|].
    cbn [fst]. by rewrite lookup_insert_ne. }
  destruct (setdefault _ _ _) as [games1 game]. cbn [fst snd] in *.
  destruct (act (accounts w) game m) as [[table' game'] r]. cbn [fst snd] in *.
  assert (∀ ch, ch ≠ Channel.id (channel m) →
            <[Channel.id (channel m) := game']> games1 !! ch = games w !! ch) as Hother.
  { intros ch Hne. rewrite lookup_insert_ne by done. by apply Hgames. }
  destruct r as [messages|e]; [|by split; [|split]].
  destruct (respond _ _ game' messages) as [events st] eqn:Hrespond.
  cbn [fst snd games accounts]. split; [done|]. split; [done|].
  unfold respond in Hrespond.
  pose proof (deliver_finishes (Channel.id (channel m)) messages) as Hfinished.
  destruct (deliver (Channel.id (channel m)) messages) as [sent st'].
  cbn [snd] in Hfinished.
  destruct (if decide (_ = "deal") then _ else _); [|by injection Hrespond as _ <-].
  destruct st'; by injection Hrespond as _ <-.
Qed.

(** X17.  Only a prefix of exactly one character can match: with any
    other value of the prefix no message has any effect. *)
Theorem on_message_needs_one_character_prefix (w : World) (m : Message.t) :
  Py.len prefix ≠ 1%nat →
  on_message w m = (w, [], Done).
Proof.
  intros Hlen. unfold on_message.
  destruct (User.eqb (author m) client_user); [done|].
  destruct (Py.split (content m)) as [|token rest] eqn:Htokens; [done|].
  cbn [length Nat.eqb]. case_decide; [done|].
  destruct (first_char_token _ _ _ Htokens) as [c Hc].
  cbn [Py.item lookup list_lookup Py.bind]. rewrite Hc. cbn [Py.bind].
  case_decide as Hprefix; [|done]. by rewrite <- Hprefix in Hlen.
Qed.

End MoreDispatcher.

(** ** The reaction handler *)

(** X18.  A reaction of a bot, and a reaction with any emoji but the two
    that ask for the balance and for the information, sends nothing.  To
    a user without an account the information emoji sends the plain
    line, while the balance emoji sends the list that holds the line as
    Python prints a list, with brackets and quotes. *)
Theorem on_reaction_add_replies (table : list Account) (ch : Z) (user : User.t) :
  (∀ emoji, on_reaction_add table emoji ch user true = []) ∧
  (∀ emoji, emoji ≠ "U+1F4B5" → emoji ≠ "U+2139" →
     on_reaction_add table emoji ch user false = []) ∧
  (select_uid table (Py.str (User.id user)) = None →
   on_reaction_add table "U+2139" ch user false
     = [Send ch "You have not registered yet!"] ∧
   on_reaction_add table "U+1F4B5" ch user false
     = [Send ch "['You have not registered yet!']"]).
Proof.
  split; [done|]. split.
  - intros emoji H1 H2. unfold on_reaction_add. by repeat case_decide.
  - intros E. unfold on_reaction_add, info_from, balance_from. rewrite E.
    by repeat case_decide.
Qed.

Section MoreReactions.
Context `{Env}.

Import Message.

(** X19.  A user who registers and then reacts is answered from the row
    of the account.  When the registration made the account, the balance
    emoji sends the default chips and the information emoji sends the
    default level, experience and wins, each on a line of its own. *)
Theorem reaction_after_register (table : list Account) (m : Message.t) (ch : Z) :
  select_uid table (Py.str (User.id (author m))) = None →
  on_reaction_add (register table m).1 "U+1F4B5" ch (author m) false
    = [Send ch (User.name (author m) +:+ " has $" +:+ Py.str default_chips +:+ ".")] ∧
  on_reaction_add (register table m).1 "U+2139" ch (author m) false
    = [Send ch (Py.join Py.newline
                  [User.name (author m) +:+ " infomation:";
                   "Level: " +:+ Py.str default_level;
                   "Current experience: " +:+ Py.str default_experience +:+ "xp";
                   "Win matches: " +:+ Py.str default_wins])].
Proof.
  intros E.
  assert (select_uid (register table m).1 (Py.str (User.id (author m)))
          = Some (new_account (Py.str (User.id (author m))))) as Hrow.
  { unfold register. rewrite E. cbn [fst]. rewrite select_uid_app, E.
    unfold select_uid. simpl. by rewrite String.eqb_refl. }
  unfold on_reaction_add, balance_from, info_from. rewrite Hrow.
  by repeat case_decide.
Qed.

End MoreReactions.

(** ** Joining, starting and the help text *)

(** [show_help] lists the keys of [commands]. *)
Lemma command_help_keys `{Env} `{Game.API} : command_help.*1 = commands.*1.
Proof. done. Qed.

Lemma dashes_length_app (a b : string) :
  length (dashes (a +:+ b)) = (length (dashes a) + length (dashes b))%nat.
Proof.
  unfold dashes. rewrite dashes_from_app, length_app. f_equal.
  generalize (0 + Py.len a)%nat. generalize 0%nat. intros i j. revert i j.
  induction b as [|c b IH]; intros i j; simpl; [done|].
  rewrite !length_app, (IH (S i) (S j)). by destruct (Ascii.eqb c "-").
Qed.

Section MoreCommands.
Context `{Env} `{Game.API}.

Import Message.

(** Outside [WAITING], [join] and [start] change nothing of the
    game and answer with lines. *)
Theorem join_start_waiting_only (table : list Account) (g : Game.t) (m : Message.t) :
  Game.state g ≠ WAITING →
  (∃ lines, join_game table g m = (g, Py.Ret lines)) ∧
  (∃ lines, start_game g m = (g, Py.Ret lines)).
Proof.
  intros Hstate. unfold join_game, start_game.
  split; repeat case_decide; try done; by eexists.
Qed.

(** X20.  The text of [help] always holds the delimiter exactly once, in
    the key [all-in], when the prefix does not hold it.  So the text is
    taken for a hand line: it is removed from the reply, an empty text is
    sent in its place, and the composition of no image raises
    [ValueError]. *)
Theorem help_reply_is_lost (g : Game.t) (m : Message.t) (ch : Z) :
  contains "-" prefix = false →
  ∃ text,
    show_help g m = (g, Py.Ret [text]) ∧
    length (dashes text) = 1%nat ∧
    deliver ch [text] = ([Send ch EmptyString], Crashed Py.ValueError).
Proof.
  intros Hprefix.
  assert (length (dashes prefix) = 0%nat) as Hzero.
  { apply (contains_dashes prefix 0) in Hprefix. unfold dashes. by rewrite Hprefix. }
  unfold show_help.
  change (Py.max_nat (Py.len <$> command_help.*1)) with (Py.Ret 7%nat). cbn [Py.bind].
  let l := eval vm_compute in (Py.sorted_by fst command_help) in
    change (Py.sorted_by fst command_help) with l.
  cbn [fmap list_fmap].
  eexists. split; [reflexivity|].
  match goal with |- ?A ∧ _ => assert A as Hone end.
  { cbn [Py.join String.concat]. rewrite !dashes_length_app, !Hzero. by vm_compute. }
  split; [exact Hone|].
  match type of Hone with length (dashes ?t) = _ =>
    destruct (dashes t) as [|p [|q qs]] eqn:E; try done;
    apply (deliver_no_card ch [] [] t p); [constructor|exact E|constructor]
  end.
Qed.

End MoreCommands.

(** ** The further properties on concrete inputs *)

Section MoreExamples.
Import Sample MoreSamples.
#[local] Existing Instance env.
#[local] Existing Instance api.

(** X2 on a reply whose second line frames the tokens AS and KD. *)
Lemma card_files_round_trip_witness :
  find_card ["The flop:"; "Cards: -AS-KD-"; "It is bob's turn."]
    = Some [1; 7; 10; 13]%nat ∧
  card_files ["The flop:"; "Cards: -AS-KD-"; "It is bob's turn."] [1; 7; 10; 13]%nat
    = Py.Ret ["Cards/AS.png"; "Cards/KD.png"].
Proof.
  apply (card_files_round_trip ["The flop:"] ["It is bob's turn."] "Cards: "
           EmptyString ["AS"; "KD"]); by repeat constructor.
Defined.

(** X4 on a reply whose second line names a player with a hyphen. *)
Lemma deliver_single_delimiter_witness :
  deliver 7 ["alice calls."; "It is jean-luc's turn."]
    = ([Send 7 "alice calls."], Crashed Py.ValueError).
Proof.
  apply (deliver_single_delimiter 7 ["alice calls."] [] "It is jean-luc's turn." 10);
    by repeat constructor.
Defined.

(** X5 on a hand line whose second token has no asset. *)
Lemma deliver_missing_asset_witness :
  deliver 7 ["Cards: -AS-XX-"; "It is bob's turn."]
    = ([Send 7 "It is bob's turn."], Crashed Py.FileNotFoundError).
Proof.
  apply (deliver_missing_asset 7 [] ["It is bob's turn."] "Cards: -AS-XX-"
           ["Cards/AS.png"; "Cards/XX.png"] "Cards/XX.png").
  - constructor.
  - done.
  - by vm_compute.
  - right. left.
  - by vm_compute.
Defined.

(** X6 on a table bet of 10 and a stack of 100: a raise by 90 is passed
    on, a raise by 200 is refused. *)
Lemma raise_bet_guard_witness :
  raise_bet (table_of BETTING [seat alice 100 0; seat bob 100 0] 0 10)
      (says alice "!raise 90")
    = caught "90"
        (Game.raise_bet (table_of BETTING [seat alice 100 0; seat bob 100 0] 0 10) 90) ∧
  ∃ lines,
    raise_bet (table_of BETTING [seat alice 100 0; seat bob 100 0] 0 10)
        (says alice "!raise 200")
      = (table_of BETTING [seat alice 100 0; seat bob 100 0] 0 10, Py.Ret lines).
Proof.
  split.
  - apply (proj1 (raise_bet_guard
                    (table_of BETTING [seat alice 100 0; seat bob 100 0] 0 10)
                    (says alice "!raise 90") (seat alice 100 0) "!raise" "90" [] 90
                    ltac:(done) ltac:(done) ltac:(done) eq_refl eq_refl eq_refl
                    eq_refl eq_refl)).
    cbn. lia.
  - apply (proj2 (raise_bet_guard
                    (table_of BETTING [seat alice 100 0; seat bob 100 0] 0 10)
                    (says alice "!raise 200") (seat alice 100 0) "!raise" "200" [] 200
                    ltac:(done) ltac:(done) ltac:(done) eq_refl eq_refl eq_refl
                    eq_refl eq_refl)).
    right. cbn. lia.
Defined.

(** [raise_bet_malformed] on a raise without an amount and a raise by a word. *)
Lemma raise_bet_malformed_witness :
  raise_bet (table_of BETTING [seat alice 100 0; seat bob 100 0] 0 10) (says alice "!raise")
    = (table_of BETTING [seat alice 100 0; seat bob 100 0] 0 10,
       Py.Ret ["Please follow !raise with the amount that you would like to raise it by."]) ∧
  raise_bet (table_of BETTING [seat alice 100 0; seat bob 100 0] 0 10)
      (says alice "!raise lots")
    = (table_of BETTING [seat alice 100 0; seat bob 100 0] 0 10,
       Py.Ret ["Please follow !raise with an integer. 'lots' is not an integer."]).
Proof.
  split.
  - apply (proj1 (raise_bet_malformed
                    (table_of BETTING [seat alice 100 0; seat bob 100 0] 0 10)
                    (says alice "!raise") (seat alice 100 0)
                    ltac:(done) ltac:(done) ltac:(done) eq_refl eq_refl eq_refl)
             "!raise" eq_refl).
  - apply (proj2 (raise_bet_malformed
                    (table_of BETTING [seat alice 100 0; seat bob 100 0] 0 10)
                    (says alice "!raise lots") (seat alice 100 0)
                    ltac:(done) ltac:(done) ltac:(done) eq_refl eq_refl eq_refl)
             "!raise" "lots" [] eq_refl eq_refl).
Defined.

(** X7 on a betting round in which it is the turn of alice: the five
    commands of bob change nothing. *)
Lemma betting_guards_witness :
  Forall (fun handler : Game.t → Message.t → reply =>
            ∃ line,
              handler (table_of BETTING [seat alice 100 0; seat bob 100 0] 0 10)
                (says bob "!fold")
              = (table_of BETTING [seat alice 100 0; seat bob 100 0] 0 10, Py.Ret [line]))
    [call_bet; check; raise_bet; fold_hand; all_in].
Proof.
  apply betting_guards. right. right. right. right.
  exists (seat alice 100 0). by split.
Defined.

(** [check_needs_matched_bet] on a table bet of 10 that alice has not matched. *)
Lemma check_needs_matched_bet_witness :
  check (table_of BETTING [seat alice 100 0; seat bob 100 0] 0 10) (says alice "!check")
    = (table_of BETTING [seat alice 100 0; seat bob 100 0] 0 10,
       Py.Ret ["You can't check, alice because you need to put in $10 to call."]).
Proof.
  apply (proj2 (check_needs_matched_bet
                  (table_of BETTING [seat alice 100 0; seat bob 100 0] 0 10)
                  (says alice "!check") (seat alice 100 0)
                  ltac:(done) ltac:(done) ltac:(done) eq_refl eq_refl eq_refl)).
  done.
Defined.

(** X13 on a store that holds the account of bob only. *)
Lemma balance_after_register_witness :
  (balance [bob_account] (says alice "!balance")).2
    = Py.Ret ["You have not registered yet!"] ∧
  (balance (register [bob_account] (says alice "!reg")).1 (says alice "!balance")).2
    = Py.Ret ["alice has $1000."] ∧
  (balance (register [bob_account] (says bob "!reg")).1 (says bob "!balance")).2
    = Py.Ret ["bob has $250."].
Proof.
  destruct (balance_after_register [bob_account] (says alice "!reg")
              (says alice "!balance") eq_refl) as (_ & Hnew & _).
  destruct (balance_after_register [bob_account] (says bob "!reg")
              (says bob "!balance") eq_refl) as (_ & _ & Hold).
  destruct (Hnew eq_refl) as [H1 H2].
  split; [exact H1|]. split; [exact H2|]. exact (Hold bob_account eq_refl).
Defined.

(** X14 on a message without the prefix. *)
Lemma on_message_ignores_witness :
  on_message empty_world (says alice "hello there") = (empty_world, [], Done).
Proof.
  apply on_message_ignores. right. right. right.
  exists "hello", ["there"]. by split.
Defined.

(** X15 on a command that does not exist. *)
Lemma on_message_unknown_command_witness :
  on_message empty_world (says alice "!dance now")
    = (empty_world,
       [Send 7 "!dance now is not a valid command. Message !help to see the list of commands."],
       Done).
Proof.
  rewrite (on_message_unknown_command empty_world (says alice "!dance now")
             "!dance" ["now"]) by done.
  by vm_compute.
Defined.

(** X17 on the environment whose prefix is [p!]. *)
Lemma on_message_needs_one_character_prefix_witness :
  @on_message env_two api empty_world (says alice "p!help") = (empty_world, [], Done).
Proof.
  by apply (@on_message_needs_one_character_prefix env_two api).
Defined.

(** X19 on alice, who registers in a store that holds bob only. *)
Lemma reaction_after_register_witness :
  on_reaction_add (register [bob_account] (says alice "!reg")).1 "U+1F4B5" 7 alice false
    = [Send 7 "alice has $1000."] ∧
  on_reaction_add (register [bob_account] (says alice "!reg")).1 "U+2139" 7 alice false
    = [Send 7 (Py.join Py.newline
                 ["alice infomation:"; "Level: 1"; "Current experience: 0xp";
                  "Win matches: 0"])].
Proof.
  destruct (reaction_after_register [bob_account] (says alice "!reg") 7 eq_refl)
    as [Hchips Hinfo].
  split; (etrans; [eassumption|by vm_compute]).
Defined.

(** [join_start_waiting_only] on a channel without a session. *)
Lemma join_start_waiting_only_witness :
  (∃ lines, join_game [] (table_of NO_GAME [] 0 0) (says alice "!join")
            = (table_of NO_GAME [] 0 0, Py.Ret lines)) ∧
  (∃ lines, start_game (table_of NO_GAME [] 0 0) (says alice "!start")
            = (table_of NO_GAME [] 0 0, Py.Ret lines)).
Proof.
  split.
  - by apply (proj1 (join_start_waiting_only [] (table_of NO_GAME [] 0 0)
                       (says alice "!join") ltac:(done))).
  - by apply (proj2 (join_start_waiting_only [] (table_of NO_GAME [] 0 0)
                       (says alice "!start") ltac:(done))).
Defined.

(** X20 with the prefix [!]. *)
Lemma help_reply_is_lost_witness :
  ∃ text,
    show_help (table_of NO_GAME [] 0 0) (says alice "!help")
      = (table_of NO_GAME [] 0 0, Py.Ret [text]) ∧
    length (dashes text) = 1%nat ∧
    deliver 7 [text] = ([Send 7 EmptyString], Crashed Py.ValueError).
Proof. by apply help_reply_is_lost. Defined.

End MoreExamples.
